(** * streamhub-sdk: the collection updater and the bounded content list

    A shallow embedding of

    - [streams/collection-updater] ([CollectionUpdater]): bootstrap once,
      then long-poll the stream service, tracking [_latestEvent];
    - [content/views/content-list-view] ([ContentListView]): the visible
      list bounded by [_maxVisibleItems], the stash of displaced content
      and the cadence counter of the feature stream.

    JavaScript objects are explicit values, [this] is an explicit record
    threaded through a small state/effect/exception monad, and every call
    that leaves the object (a client request, [emit], [push], [nextTick])
    is recorded as an effect, in call order. *)

From Stdlib Require Import ZArith List String Ascii Bool Lia.
Import ListNotations.

Local Open Scope string_scope.
Local Open Scope Z_scope.
Local Open Scope list_scope.

(** ** JavaScript values *)

Module JS.

(** The values the two modules inspect.  An object is the association list
    of its own enumerable properties, in [for..in] order; the first binding
    of a key is the one a property read sees. *)
#[warnings="-register-all"]
Inductive value : Type :=
| VUndefined
| VNull
| VBool (b : bool)
| VNum (n : Z)
| VStr (s : string)
| VObj (props : list (string * value)).

(** What a statement can end in: a normal value or a thrown exception. *)
Inductive exn : Type :=
| TypeError (reading : string).

Inductive completion (A : Type) : Type :=
| Normal (a : A)
| Throw (e : exn).
Arguments Normal {A} a.
Arguments Throw {A} e.

(** [if (v)] *)
Definition truthy (v : value) : bool :=
  match v with
  | VUndefined | VNull => false
  | VBool b => b
  | VNum n => negb (n =? 0)
  | VStr s => negb (String.eqb s "")
  | VObj _ => true
  end.

Fixpoint lookup (k : string) (props : list (string * value)) : value :=
  match props with
  | [] => VUndefined
  | (k', v) :: rest => if String.eqb k k' then v else lookup k rest
  end.

(** [v.k] for the property names the code reads ([collectionSettings],
    [event], [collectionId], [timeout], [states], [maxEventId]): a
    [TypeError] on [undefined] and [null], [undefined] on a primitive. *)
Definition get_prop (v : value) (k : string) : completion value :=
  match v with
  | VUndefined | VNull => Throw (TypeError k)
  | VObj props => Normal (lookup k props)
  | VBool _ | VNum _ | VStr _ => Normal VUndefined
  end.

Fixpoint chars (s : string) : list value :=
  match s with
  | EmptyString => []
  | String c rest => VStr (String c EmptyString) :: chars rest
  end.

(** [o.hasOwnProperty(k)] finds an own property named
    [hasOwnProperty] before the method every object inherits. *)
Definition has_own (k : string) (props : list (string * value)) : bool :=
  existsb (fun kv => String.eqb k (fst kv)) props.

(** The values [o[k]] met by
    [for (var k in o) { if (o.hasOwnProperty(k)) { ... o[k] ... } }]:
    nothing for [undefined], [null], booleans and numbers, the characters
    of a string, the own properties of an object.  The test is a call on
    [o] itself: on an object with an own property [hasOwnProperty] (no
    value here is a function) the first turn of the loop throws. *)
Definition own_values (o : value) : completion (list value) :=
  match o with
  | VObj props =>
      if has_own "hasOwnProperty" props
      then Throw (TypeError "hasOwnProperty")
      else Normal (map (fun kv => lookup (fst kv) props) props)
  | VStr s => Normal (chars s)
  | _ => Normal []
  end.

End JS.
Import JS.

(** ** The state-to-content translator (external collaborator)

    [streamhub-sdk/content/state-to-content] is constructed from the whole
    stream response; each [write(state)] may signal ['data'] any number of
    times before it returns. *)
Class StateToContent (Content : Type) : Type := {
  translator : Type;
  stc_new : value -> translator;
  stc_write : translator -> value -> translator * list Content
}.

(** ** CollectionUpdater *)

Module Updater.

Section WithTranslator.

Context {Content : Type} {STC : StateToContent Content}.

(** The fields of [this] that the methods read or write. *)
Record CollectionUpdater : Type := mkUpdater {
  _network : value;
  _siteId : value;
  _articleId : value;
  _environment : value;
  _collectionId : value;
  _latestEvent : value;
  _isInitingFromBootstrap : bool;
  _finishedInitFromBootstrap : bool
}.

(** The object literal of [_getCollectionOptions], with the [commentId]
    that [_stream] adds ([None]: the property was never set). *)
Record Options : Type := mkOptions {
  environment : value;
  network : value;
  siteId : value;
  articleId : value;
  collectionId : value;
  commentId : option value
}.

(** Calls that leave the updater. *)
Inductive Effect : Type :=
| BootstrapGetContent (opts : Options)
| StreamGetContent (opts : Options)
| EmitError (err : value)
| Push (contents : list Content)
| NextTickStream
| Uncaught (e : exn).

(** *** The method monad: [this], the effects so far, normal or thrown *)

Definition M (A : Type) : Type :=
  CollectionUpdater -> completion A * CollectionUpdater * list Effect.

Definition ret {A} (a : A) : M A := fun u => (Normal a, u, []).

Definition bind {A B} (m : M A) (k : A -> M B) : M B :=
  fun u =>
    match m u with
    | (Normal a, u1, fx1) =>
        let '(r, u2, fx2) := k a u1 in (r, u2, fx1 ++ fx2)
    | (Throw e, u1, fx1) => (Throw e, u1, fx1)
    end.

Definition this : M CollectionUpdater := fun u => (Normal u, u, []).
Definition update (f : CollectionUpdater -> CollectionUpdater) : M unit :=
  fun u => (Normal tt, f u, []).
Definition perform (e : Effect) : M unit := fun u => (Normal tt, u, [e]).
Definition lift {A} (c : completion A) : M A := fun u => (c, u, []).

Notation "x <- m ;; k" := (bind m (fun x => k))
  (at level 61, m at next level, right associativity).
Notation "m ;;; k" := (bind m (fun _ => k))
  (at level 61, right associativity).

Definition set_latestEvent (v : value) (u : CollectionUpdater) :=
  mkUpdater (_network u) (_siteId u) (_articleId u) (_environment u)
            (_collectionId u) v
            (_isInitingFromBootstrap u) (_finishedInitFromBootstrap u).
Definition set_collectionId (v : value) (u : CollectionUpdater) :=
  mkUpdater (_network u) (_siteId u) (_articleId u) (_environment u)
            v (_latestEvent u)
            (_isInitingFromBootstrap u) (_finishedInitFromBootstrap u).
Definition set_isIniting (b : bool) (u : CollectionUpdater) :=
  mkUpdater (_network u) (_siteId u) (_articleId u) (_environment u)
            (_collectionId u) (_latestEvent u)
            b (_finishedInitFromBootstrap u).
Definition set_finishedInit (b : bool) (u : CollectionUpdater) :=
  mkUpdater (_network u) (_siteId u) (_articleId u) (_environment u)
            (_collectionId u) (_latestEvent u)
            (_isInitingFromBootstrap u) b.

(** [new CollectionUpdater(opts)] *)
Definition construct (opts_network opts_siteId opts_articleId
                      opts_environment : value) : CollectionUpdater :=
  mkUpdater opts_network opts_siteId opts_articleId opts_environment
            VUndefined VUndefined false false.

(** [_getCollectionOptions] *)
Definition _getCollectionOptions : M Options :=
  u <- this ;;
  ret (mkOptions (_environment u) (_network u) (_siteId u) (_articleId u)
                 (_collectionId u) None).

(** [_stream], up to the call of [streamClient.getContent] *)
Definition _stream : M unit :=
  u <- this ;;
  let latestEvent := _latestEvent u in
  streamClientOpts <- _getCollectionOptions ;;
  perform (StreamGetContent
             (mkOptions (environment streamClientOpts)
                        (network streamClientOpts)
                        (siteId streamClientOpts)
                        (articleId streamClientOpts)
                        (collectionId streamClientOpts)
                        (Some latestEvent))).

(** The options [_stream] sends when [this] is [u]. *)
Definition stream_options (u : CollectionUpdater) : Options :=
  mkOptions (_environment u) (_network u) (_siteId u) (_articleId u)
            (_collectionId u) (Some (_latestEvent u)).

(** The options [_getBootstrapInit] sends when [this] is [u]. *)
Definition collection_options (u : CollectionUpdater) : Options :=
  mkOptions (_environment u) (_network u) (_siteId u) (_articleId u)
            (_collectionId u) None.

(** The loop of [_contentsFromStreamData]: one [write] per own state,
    the ['data'] listener appending to [contents]. *)
Fixpoint write_all (t : translator) (states : list value)
  : list Content :=
  match states with
  | [] => []
  | state :: rest =>
      let '(t', produced) := stc_write t state in
      produced ++ write_all t' rest
  end.

(** [_contentsFromStreamData] *)
Definition _contentsFromStreamData (streamData : value)
  : M (list Content) :=
  states <- lift (get_prop streamData "states") ;;
  let stateToContent := stc_new streamData in
  values <- lift (own_values states) ;;
  ret (write_all stateToContent values).

(** The callback [_stream] hands to [streamClient.getContent] *)
Definition stream_callback (err data : value) : M unit :=
  if truthy err then perform (EmitError err)
  else
    timeout <- lift (get_prop data "timeout") ;;
    if truthy timeout then perform NextTickStream
    else
      contents <- _contentsFromStreamData data ;;
      maxEventId <- lift (get_prop data "maxEventId") ;;
      update (set_latestEvent maxEventId) ;;;
      match contents with
      | _ :: _ => perform (Push contents)
      | [] => _stream
      end.

(** The errback [_read] hands to [_getBootstrapInit] *)
Definition read_errback (err initResponse : value) : M unit :=
  collectionSettings <- lift (get_prop initResponse "collectionSettings") ;;
  latestEvent <- lift (get_prop collectionSettings "event") ;;
  collectionId <- lift (get_prop collectionSettings "collectionId") ;;
  update (set_latestEvent latestEvent) ;;;
  update (set_collectionId collectionId) ;;;
  _stream.

(** [_getBootstrapInit], up to the call of [_bootstrapClient.getContent];
    its only caller passes [read_errback]. *)
Definition _getBootstrapInit : M unit :=
  u <- this ;;
  if _isInitingFromBootstrap u then ret tt
  else
    update (set_isIniting true) ;;;
    collectionOpts <- _getCollectionOptions ;;
    perform (BootstrapGetContent collectionOpts).

(** The callback [_getBootstrapInit] hands to
    [_bootstrapClient.getContent] *)
Definition bootstrap_callback (err data : value) : M unit :=
  (if truthy err then perform (EmitError err) else ret tt) ;;;
  update (set_isIniting false) ;;;
  update (set_finishedInit true) ;;;
  read_errback err data.

(** [_read] *)
Definition _read : M unit :=
  u <- this ;;
  if negb (_finishedInitFromBootstrap u) then _getBootstrapInit
  else _stream.

(** *** The updater in its environment

    The clients answer later, through the callbacks above; the consumer's
    [read()] reaches [_read]; [nextTick] runs its function on a later turn.
    A [System] is the updater together with the requests still awaiting
    their callback, the deferred calls not yet run, and everything the
    updater has done so far. *)

Record System : Type := mkSystem {
  updater : CollectionUpdater;
  bootstrapPending : list Options;
  streamPending : list Options;
  deferred : nat;
  history : list Effect
}.

Inductive Event : Type :=
| Read
| BootstrapResponse (err data : value)
| StreamResponse (err data : value)
| Tick.

Definition bootstrap_requests (fx : list Effect) : list Options :=
  flat_map (fun e => match e with
                     | BootstrapGetContent o => [o]
                     | _ => []
                     end) fx.

Definition stream_requests (fx : list Effect) : list Options :=
  flat_map (fun e => match e with
                     | StreamGetContent o => [o]
                     | _ => []
                     end) fx.

Definition scheduled (fx : list Effect) : nat :=
  List.length (filter (fun e => match e with
                                | NextTickStream => true
                                | _ => false
                                end) fx).

(** The effects of one turn, an exception that escapes it included. *)
Definition turn_effects (r : completion unit) (fx : list Effect)
  : list Effect :=
  match r with
  | Normal _ => fx
  | Throw e => fx ++ [Uncaught e]
  end.

(** Run one method or callback of the updater to its end. *)
Definition turn (m : M unit) (sys : System) : System :=
  let '(r, u, fx) := m (updater sys) in
  mkSystem u
           (bootstrapPending sys ++ bootstrap_requests fx)
           (streamPending sys ++ stream_requests fx)
           (deferred sys + scheduled fx)%nat
           (history sys ++ turn_effects r fx).

Definition step (sys : System) (ev : Event) : option System :=
  match ev with
  | Read => Some (turn _read sys)
  | BootstrapResponse err data =>
      match bootstrapPending sys with
      | [] => None
      | _ :: rest =>
          Some (turn (bootstrap_callback err data)
                     (mkSystem (updater sys) rest (streamPending sys)
                               (deferred sys) (history sys)))
      end
  | StreamResponse err data =>
      match streamPending sys with
      | [] => None
      | _ :: rest =>
          Some (turn (stream_callback err data)
                     (mkSystem (updater sys) (bootstrapPending sys) rest
                               (deferred sys) (history sys)))
      end
  | Tick =>
      match deferred sys with
      | O => None
      | S n =>
          Some (turn _stream
                     (mkSystem (updater sys) (bootstrapPending sys)
                               (streamPending sys) n (history sys)))
      end
  end.

Fixpoint run (sys : System) (evs : list Event) : option System :=
  match evs with
  | [] => Some sys
  | ev :: rest =>
      match step sys ev with
      | Some sys' => run sys' rest
      | None => None
      end
  end.

Definition start (u : CollectionUpdater) : System :=
  mkSystem u [] [] O [].

Definition reachable (u0 : CollectionUpdater) (sys : System) : Prop :=
  exists evs, run (start u0) evs = Some sys.

(** A stream response that is neither an error nor a long-poll timeout. *)
Definition is_data (data : value) : bool :=
  match get_prop data "timeout" with
  | Normal timeout => negb (truthy timeout)
  | Throw _ => false
  end.

(** [data.maxEventId] of such a response. *)
Definition maxEventId_of (data : value) : value :=
  match get_prop data "maxEventId" with
  | Normal v => v
  | Throw _ => VUndefined
  end.



(** [data.states] of a response. *)
Definition states_of (data : value) : value :=
  match get_prop data "states" with
  | Normal v => v
  | Throw _ => VUndefined
  end.

(** Whether the loop of [_contentsFromStreamData] gets through the
    states of a response, and the states it then meets. *)
Definition enumerable (data : value) : bool :=
  match own_values (states_of data) with
  | Normal _ => true
  | Throw _ => false
  end.

Definition state_values (data : value) : list value :=
  match own_values (states_of data) with
  | Normal values => values
  | Throw _ => []
  end.

(** The batch [_contentsFromStreamData] returns for a response. *)
Definition batch_of (data : value) : list Content :=
  write_all (stc_new data) (state_values data).



(** At most one bootstrap request is outstanding, and then, and only
    then, the updater is flagged as initialising. *)
Definition bootstrap_guarded (sys : System) : Prop :=
  (bootstrapPending sys = []
   /\ _isInitingFromBootstrap (updater sys) = false)
  \/ (exists o, bootstrapPending sys = [o]
       /\ _isInitingFromBootstrap (updater sys) = true
       /\ _finishedInitFromBootstrap (updater sys) = false).

End WithTranslator.

(** A translator for concrete runs: a state that is an object becomes a
    content (the state itself), anything else is dropped. *)
Definition object_states : StateToContent value := {|
  translator := unit;
  stc_new := fun _ => tt;
  stc_write := fun t state =>
                 (t, match state with
                     | VObj _ => [state]
                     | _ => []
                     end)
|}.

(** The bootstrap response [{collectionSettings: {event, collectionId}}] *)
Definition init_response (event collectionId : value) : value :=
  VObj [("collectionSettings",
         VObj [("event", event); ("collectionId", collectionId)])].

(** Concrete instances: a new updater, one that awaits its bootstrap
    response, one that streams from ["E0"], and stream responses. *)
Definition fresh : CollectionUpdater :=
  construct (VStr "n1") (VStr "s1") (VStr "a1") VUndefined.

Definition awaiting_bootstrap : System (Content := value) :=
  mkSystem (set_isIniting true fresh) [collection_options fresh] [] O
           [BootstrapGetContent (collection_options fresh)].

Definition stateA : value := VObj [("content", VObj [("id", VStr "1")])].
Definition stateB : value := VObj [("content", VObj [("id", VStr "2")])].

Definition two_states (maxEventId : value) : value :=
  VObj [("states", VObj [("1", stateA); ("2", stateB)]);
        ("maxEventId", maxEventId)].

Definition no_states (maxEventId : value) : value :=
  VObj [("states", VObj []); ("maxEventId", maxEventId)].


Definition streaming_E0 : CollectionUpdater :=
  set_finishedInit true
    (set_latestEvent (VStr "E0")
       (set_collectionId (VStr "C1")
          (construct (VStr "n1") (VStr "s1") (VStr "a1") VUndefined))).

Definition awaiting_stream : System (Content := value) :=
  mkSystem streaming_E0 [] [stream_options streaming_E0] O
           [BootstrapGetContent (collection_options fresh);
            StreamGetContent (stream_options streaming_E0)].

End Updater.

(** ** The stash of displaced content *)

Module Stash.

(** The content models [ContentListView] files away. *)
Record Content : Type := mkContent {
  content_ref : nat;           (* object identity, for [===] *)
  id : option string           (* [content.id], [None] when undefined *)
}.

(** Modelled from the spec: the stash classes
    ([streamhub-sdk/views/streams/more] and [.../pond]) are not among the
    sources; only their callers are.  Section 3 gives the state, "an
    ordered collection of displaced entities plus a release-goal counter
    and a release cadence counter", with the configured interval of
    section 4.4.  The head of [_stack] is the entity stacked last. *)
Record Stash : Type := mkStash {
  _stack : list Content;
  _goal : Z;
  _count : Z;
  _interval : Z
}.

(** Modelled from the spec: [stack(entity)], "push an entity onto the
    stash; stash ordering is last-in-first-out" (the method is not among
    the sources). *)
Definition stack (entity : Content) (st : Stash) : Stash :=
  mkStash (entity :: _stack st) (_goal st) (_count st) (_interval st).

(** Modelled from the spec: [setGoal(n)], "set the number of entities
    eligible for automatic release during the current window" (the method
    is not among the sources). *)
Definition setGoal (n : Z) (st : Stash) : Stash :=
  mkStash (_stack st) n (_count st) (_interval st).

(** Modelled from the spec: a release event, "release of one stashed
    entity (consuming one unit of goal) ...; if the stash is empty, release
    is a no-op and does not consume goal", the most recently displaced
    entity first, and none while no goal is left (the release path of the
    stash is not among the sources). *)
Definition release (st : Stash) : option Content * Stash :=
  match _stack st with
  | [] => (None, st)
  | top :: rest =>
      if 0 <? _goal st
      then (Some top, mkStash rest (_goal st - 1) (_count st) (_interval st))
      else (None, st)
  end.

(** The cadence counter is written by the list view, not by the stash. *)
Definition set_count (n : Z) (st : Stash) : Stash :=
  mkStash (_stack st) (_goal st) n (_interval st).

(** What can happen to a stash, and the entities a sequence of such
    operations releases, in order. *)
Inductive Op : Type :=
| Stack (entity : Content)
| SetGoal (n : Z)
| SetCount (n : Z)
| Release.

Fixpoint exec (st : Stash) (ops : list Op) : Stash * list Content :=
  match ops with
  | [] => (st, [])
  | Stack entity :: rest => exec (stack entity st) rest
  | SetGoal n :: rest => exec (setGoal n st) rest
  | SetCount n :: rest => exec (set_count n st) rest
  | Release :: rest =>
      match release st with
      | (Some entity, st') =>
          let '(st'', out) := exec st' rest in (st'', entity :: out)
      | (None, st') => exec st' rest
      end
  end.

Definition raises_goal (op : Op) : bool :=
  match op with
  | SetGoal n => 0 <? n
  | _ => false
  end.

End Stash.

(** ** ContentListView *)

Module ListView.

Import Stash.

Record ContentView : Type := mkView {
  view_ref : nat;              (* object identity *)
  content : Content
}.

(** What [add] accepts: "duck type for ContentView" on [.el], which every
    view has and no content model does. *)
Inductive Item : Type :=
| AContent (c : Content)
| AView (v : ContentView).

(** The base class [streamhub-sdk/views/list-view] is not among the
    sources.  [ContentListView] uses two of its methods on [this.views]:
    [ListView.prototype.add(view, index)] and, through the
    [removeContentView.hub] handler of [setElement],
    [ListView.prototype.remove(view)]. *)
Class ListViewBase : Type := {
  ListView_add : list ContentView -> ContentView -> option Z
                 -> list ContentView;
  ListView_remove : list ContentView -> ContentView -> list ContentView
}.

(** What the subclass relies on: a view that is not yet listed is listed
    once more after [add], and removing the last listed view leaves the
    ones before it. *)
Class ListViewLaws (B : ListViewBase) : Prop := {
  ListView_add_fresh :
    forall vs v index,
      ~ In v vs ->
      List.length (ListView_add vs v index) = S (List.length vs)
      /\ (forall w, In w (ListView_add vs v index) <-> w = v \/ In w vs)
      /\ (NoDup vs -> NoDup (ListView_add vs v index));
  ListView_remove_last :
    forall vs v,
      ~ In v vs -> ListView_remove (vs ++ [v]) v = vs
}.

(** The fields of [this] that the methods read or write.  [_stash] is
    [None] when [this._stash === this.more], the default of
    [opts.stash || this.more]; [feature] is an object of its own. *)
Record ContentListView : Type := mkList {
  views : list ContentView;
  _maxVisibleItems : Z;
  _bound : bool;
  more : Stash;
  _stash : option Stash;
  feature : Stash;
  next_ref : nat               (* identity of the next object made *)
}.

Section Methods.

Context {B : ListViewBase}.

Definition set_views (vs : list ContentView) (s : ContentListView) :=
  mkList vs (_maxVisibleItems s) (_bound s) (more s) (_stash s)
         (feature s) (next_ref s).
Definition set_more (st : Stash) (s : ContentListView) :=
  mkList (views s) (_maxVisibleItems s) (_bound s) st (_stash s)
         (feature s) (next_ref s).
Definition set_stash (st : Stash) (s : ContentListView) :=
  mkList (views s) (_maxVisibleItems s) (_bound s) (more s) (Some st)
         (feature s) (next_ref s).
Definition set_feature (st : Stash) (s : ContentListView) :=
  mkList (views s) (_maxVisibleItems s) (_bound s) (more s) (_stash s)
         st (next_ref s).

(** The object [this._stash] refers to. *)
Definition the_stash (s : ContentListView) : Stash :=
  match _stash s with
  | Some st => st
  | None => more s
  end.

(** [new ContentListView(opts)]: [opts.maxVisibleItems || 50], bounded,
    [opts.stash || this.more], [opts.feature] or the stream
    [_createFeatureStream] makes; [this.more] comes from the base
    constructor. *)
Definition construct (opts_maxVisibleItems : option Z)
                     (opts_stash : option Stash)
                     (base_more feature_stream : Stash) : ContentListView :=
  mkList []
         (match opts_maxVisibleItems with
          | Some n => if n =? 0 then 50 else n
          | None => 50
          end)
         true base_more opts_stash feature_stream O.

(** [bounded] *)
Definition bounded (bound : bool) (s : ContentListView) : ContentListView :=
  mkList (views s) (_maxVisibleItems s) bound (more s) (_stash s)
         (feature s) (next_ref s).

(** [newContent.id && contentView.content.id === newContent.id] *)
Definition same_id (newContent : Content) (v : ContentView) : bool :=
  match id newContent with
  | Some i =>
      negb (String.eqb i "") &&
      match id (content v) with
      | Some j => String.eqb j i
      | None => false
      end
  | None => false
  end.

(** [getContentView] *)
Fixpoint getContentView (vs : list ContentView) (newContent : Content)
  : option ContentView :=
  match vs with
  | [] => None
  | contentView :: rest =>
      if Nat.eqb (content_ref newContent) (content_ref (content contentView))
         || same_id newContent contentView
      then Some contentView
      else getContentView rest newContent
  end.

(** [_hasVisibleVacancy] *)
Definition _hasVisibleVacancy (s : ContentListView) : bool :=
  if Z.of_nat (List.length (views s)) >? _maxVisibleItems s
  then false else true.

(** [saveForLater] *)
Definition saveForLater (c : Content) (s : ContentListView)
  : ContentListView :=
  match _stash s with
  | Some st => set_stash (stack c st) s
  | None => set_more (stack c (more s)) s
  end.

(** [createContentView]: a new view object for the content *)
Definition createContentView (c : Content) (s : ContentListView)
  : ContentView * ContentListView :=
  (mkView (next_ref s) c,
   mkList (views s) (_maxVisibleItems s) (_bound s) (more s) (_stash s)
          (feature s) (S (next_ref s))).

(** [remove]: the view itself, or the one [getContentView] finds, is told
    to [remove()] itself; its [removeContentView.hub] event reaches the
    handler of [setElement], which calls [ListView.prototype.remove].
    With no view to be found the call is made on [null]. *)
Definition remove (item : Item) (s : ContentListView)
  : completion unit * ContentListView :=
  let found :=
    match item with
    | AView v => Some v
    | AContent c => getContentView (views s) c
    end in
  match found with
  | Some contentView =>
      (Normal tt, set_views (ListView_remove (views s) contentView) s)
  | None => (Throw (TypeError "remove"), s)
  end.

(** The overflow branch of [add].  [views[views.length - 1]] is
    [undefined] on an empty list, and reading its [content] throws once
    [this.more.setGoal(0)] has run. *)
Definition displace (s : ContentListView)
  : completion unit * ContentListView :=
  let s1 := set_more (setGoal 0 (more s)) s in
  match rev (views s1) with
  | [] => (Throw (TypeError "content"), s1)
  | viewToRemove :: _ =>
      let s2 := saveForLater (content viewToRemove) s1 in
      remove (AView viewToRemove) s2
  end.

(** The end of [add]: [this.feature._count++] and the test against
    [this.feature._interval]. *)
Definition cadence (s : ContentListView) : ContentListView :=
  let s1 := set_feature (set_count (_count (feature s) + 1) (feature s)) s in
  if _count (feature s1) =? _interval (feature s1)
  then
    let s2 := set_feature (set_count (-1) (feature s1)) s1 in
    set_feature (setGoal 1 (feature s2)) s2
  else s1.

(** [add], from the creation of the new view on *)
Definition add_new (c : Content) (index : option Z) (s : ContentListView)
  : completion unit * ContentListView :=
  let '(contentView, s1) := createContentView c s in
  let '(r, s2) :=
    if _bound s1 && negb (_hasVisibleVacancy s1)
    then displace s1
    else (Normal tt, s1) in
  match r with
  | Throw e => (Throw e, s2)
  | Normal _ =>
      (Normal tt,
       cadence (set_views (ListView_add (views s2) contentView index) s2))
  end.

(** [add] *)
Definition add (item : Item) (index : option Z) (s : ContentListView)
  : completion unit * ContentListView :=
  match item with
  | AView contentView =>
      (Normal tt, set_views (ListView_add (views s) contentView index) s)
  | AContent c =>
      match getContentView (views s) c with
      | Some contentView =>
          (Normal tt, set_views (ListView_add (views s) contentView index) s)
      | None => add_new c index s
      end
  end.

(** The views made so far are told apart by their identity. *)
Definition well_formed (s : ContentListView) : Prop :=
  NoDup (views s)
  /\ Forall (fun v => (view_ref v < next_ref s)%nat) (views s).

End Methods.

(** A base list for concrete runs: the view is spliced in at [index] when
    one is given and appended otherwise; [remove] drops the first
    occurrence. *)
Definition view_eqb (a b : ContentView) : bool :=
  Nat.eqb (view_ref a) (view_ref b)
  && Nat.eqb (content_ref (content a)) (content_ref (content b))
  && match id (content a), id (content b) with
     | Some i, Some j => String.eqb i j
     | None, None => true
     | _, _ => false
     end.

Fixpoint remove_first (vs : list ContentView) (v : ContentView)
  : list ContentView :=
  match vs with
  | [] => []
  | w :: rest => if view_eqb w v then rest else w :: remove_first rest v
  end.

Definition splice (vs : list ContentView) (v : ContentView)
                  (index : option Z) : list ContentView :=
  match index with
  | Some i => firstn (Z.to_nat i) vs ++ v :: skipn (Z.to_nat i) vs
  | None => vs ++ [v]
  end.

Definition simple_list : ListViewBase := {|
  ListView_add := splice;
  ListView_remove := remove_first
|}.

(** The states after each of a series of [add(content)] calls. *)
Fixpoint add_each {B : ListViewBase} (cs : list Content)
         (s : ContentListView) : list ContentListView :=
  match cs with
  | [] => []
  | c :: rest =>
      let s' := snd (add (AContent c) None s) in
      s' :: add_each rest s'
  end.

(** Concrete objects: contents told apart by identity, an empty stash
    with no goal, a feature stream counting from [0] up to the interval
    [2], and a list of at most one visible item (plus one). *)
Definition item (n : nat) : Content := mkContent n None.

Definition empty_stash : Stash := mkStash [] 0 0 0.

Definition every_second : Stash := mkStash [] 0 0 2.

Definition short_list : ContentListView :=
  construct (Some 1) None empty_stash every_second.

Definition full_list : ContentListView :=
  snd (add (B := simple_list) (AContent (item 1)) None
         (snd (add (B := simple_list) (AContent (item 0)) None short_list))).

End ListView.

(** ** Observations on the runs of the updater *)

Module UpdaterRuns.

Import Updater.

Section WithTranslator.

Context {Content : Type} {STC : StateToContent Content}.

(** The arguments of the [push] calls among some effects. *)
Definition pushes (fx : list (Effect (Content := Content)))
  : list (list Content) :=
  flat_map (fun e => match e with
                     | Push cs => [cs]
                     | _ => []
                     end) fx.

(** The arguments of the [emit('error', err)] calls among some effects. *)
Definition errors (fx : list (Effect (Content := Content))) : list value :=
  flat_map (fun e => match e with
                     | EmitError err => [err]
                     | _ => []
                     end) fx.

(** The errors the two services answered with, in the order of the
    answers. *)
Definition failures (evs : list Event) : list value :=
  flat_map (fun ev => match ev with
                      | BootstrapResponse err _ =>
                          if truthy err then [err] else []
                      | StreamResponse err _ =>
                          if truthy err then [err] else []
                      | _ => []
                      end) evs.

(** The collection a request names. *)
Definition names_collection (network siteId articleId environment : value)
           (o : Options) : Prop :=
  Updater.network o = network
  /\ Updater.siteId o = siteId
  /\ Updater.articleId o = articleId
  /\ Updater.environment o = environment.

(** What holds of the updater made by
    [new CollectionUpdater({network, siteId, articleId, environment})]
    after any events. *)
Definition settled (network siteId articleId environment : value)
           (sys : System (Content := Content)) : Prop :=
  let u := updater sys in
  let opts0 :=
    mkOptions environment network siteId articleId VUndefined None in
  (_network u = network /\ _siteId u = siteId
   /\ _articleId u = articleId /\ _environment u = environment)
  /\ bootstrap_guarded sys
  /\ Forall (eq opts0) (bootstrapPending sys)
  /\ (_finishedInitFromBootstrap u = false ->
      bootstrap_requests (history sys) = bootstrapPending sys
      /\ stream_requests (history sys) = []
      /\ streamPending sys = []
      /\ deferred sys = O
      /\ pushes (history sys) = []
      /\ _collectionId u = VUndefined
      /\ _latestEvent u = VUndefined)
  /\ (_finishedInitFromBootstrap u = true ->
      bootstrapPending sys = []
      /\ bootstrap_requests (history sys) = [opts0])
  /\ Forall (names_collection network siteId articleId environment)
            (stream_requests (history sys))
  /\ Forall (fun cs => cs <> []) (pushes (history sys)).

End WithTranslator.

(** Two concrete runs of a new updater, and where they lead. *)
Definition two_batches : list Event :=
  [Read;
   BootstrapResponse VNull (init_response (VStr "E0") (VStr "C1"));
   StreamResponse VNull (no_states (VStr "E1"));
   StreamResponse VNull (two_states (VStr "E2"))].

Definition two_failures : list Event :=
  [Read;
   BootstrapResponse VNull (init_response (VStr "E0") (VStr "C1"));
   StreamResponse (VStr "boom") VUndefined;
   Read;
   StreamResponse VNull VUndefined;
   Read;
   StreamResponse (VStr "again") VNull].

Definition after_two_batches : System (Content := value) :=
  Eval vm_compute in
    match run (STC := object_states) (start fresh) two_batches with
    | Some sys => sys
    | None => start fresh
    end.

Definition after_two_failures : System (Content := value) :=
  Eval vm_compute in
    match run (STC := object_states) (start fresh) two_failures with
    | Some sys => sys
    | None => start fresh
    end.

End UpdaterRuns.

(** ** Observations on the content list *)

Module ListViewRuns.

Import Stash ListView.

(** The test of the loop in [getContentView]:
    [newContent === contentView.content ||
     (newContent.id && contentView.content.id === newContent.id)]. *)
Definition matches (newContent : Content) (v : ContentView) : bool :=
  Nat.eqb (content_ref newContent) (content_ref (content v))
  || same_id newContent v.


(** A series of [add(content, index)] calls; the exception a call may
    end in is caught by the caller. *)
Definition add_all {B : ListViewBase} (calls : list (Content * option Z))
           (s : ContentListView) : ContentListView :=
  fold_left (fun s call => snd (add (AContent (fst call)) (snd call) s))
            calls s.


(** A list of at most one visible item (plus one) that was given a stash
    of its own, after two contents were added. *)
Definition full_list_with_own_stash : ContentListView :=
  add_all (B := simple_list) [(item 0, None); (item 1, None)]
          (construct (Some 1) (Some empty_stash) empty_stash every_second).

End ListViewRuns.

(** ** LivefyreContent *)

Module LivefyreContent.

(** The ids of attachments and replies: numbers, strings, or nothing, as
    the stream sends them. *)
Inductive primitive : Type :=
| PUndefined
| PNull
| PBool (b : bool)
| PNum (n : Z)
| PStr (s : string).

(** [if (obj.id)] *)
Definition has_id (p : primitive) : bool :=
  match p with
  | PUndefined | PNull => false
  | PBool b => b
  | PNum n => negb (n =? 0)
  | PStr s => negb (String.eqb s "")
  end.

(** [a === b] *)
Definition strict_equal (a b : primitive) : bool :=
  match a, b with
  | PUndefined, PUndefined => true
  | PNull, PNull => true
  | PBool x, PBool y => Bool.eqb x y
  | PNum x, PNum y => x =? y
  | PStr x, PStr y => String.eqb x y
  | _, _ => false
  end.

(** An attachment or a reply, as far as this class looks at it. *)
Record Attached : Type := mkAttached {
  attached_ref : nat;          (* object identity *)
  attached_id : primitive      (* [obj.id] *)
}.

(** The fields the methods of this class read or write ([source],
    [author], the dates, [visibility], [parentId] and [meta] are only
    written, by the constructor). *)
Record LivefyreContent : Type := mkLivefyreContent {
  body : value;
  id : value;
  _annotations : value;
  featured : value;
  attachments : list Attached;
  replies : list Attached
}.

(** [this.emit(...)] *)
Inductive Signal : Type :=
| Emit_attachment (obj : Attached)
| Emit_reply (obj : Attached).

(** [a || b] *)
Definition or_else (a b : value) : value := if truthy a then a else b.

(** Methods as functions of [this] that end normally or throw. *)
Definition M (A : Type) : Type :=
  LivefyreContent -> completion A * LivefyreContent.

Definition ret {A} (a : A) : M A := fun c => (Normal a, c).

Definition bind {A B} (m : M A) (k : A -> M B) : M B :=
  fun c =>
    match m c with
    | (Normal a, c1) => k a c1
    | (Throw e, c1) => (Throw e, c1)
    end.

Definition lift {A} (r : completion A) : M A := fun c => (r, c).
Definition update (f : LivefyreContent -> LivefyreContent) : M unit :=
  fun c => (Normal tt, f c).

Notation "x <- m ;; k" := (bind m (fun x => k))
  (at level 61, m at next level, right associativity).
Notation "m ;;; k" := (bind m (fun _ => k))
  (at level 61, right associativity).

Definition set_body (v : value) (c : LivefyreContent) :=
  mkLivefyreContent v (id c) (_annotations c) (featured c)
                    (attachments c) (replies c).
Definition set_id (v : value) (c : LivefyreContent) :=
  mkLivefyreContent (body c) v (_annotations c) (featured c)
                    (attachments c) (replies c).
Definition set_annotations (v : value) (c : LivefyreContent) :=
  mkLivefyreContent (body c) (id c) v (featured c)
                    (attachments c) (replies c).
Definition set_featured (v : value) (c : LivefyreContent) :=
  mkLivefyreContent (body c) (id c) (_annotations c) v
                    (attachments c) (replies c).
Definition set_attachments (l : list Attached) (c : LivefyreContent) :=
  mkLivefyreContent (body c) (id c) (_annotations c) (featured c)
                    l (replies c).

(** [_readAnnotations] *)
Definition _readAnnotations (anno : value) : M unit :=
  update (set_annotations anno) ;;;
  featuredmessage <- lift (get_prop anno "featuredmessage") ;;
  update (set_featured (or_else featuredmessage (VBool false))).

(** Whether a value can be made a property name or a number: an object
    is asked for its [toString] (and [valueOf]), and one with an own
    property [toString] (no value here is a function) has neither way
    left to a primitive. *)
Definition converts (v : value) : bool :=
  match v with
  | VObj props => negb (has_own "toString" props)
  | _ => true
  end.

(** The conversion of the operand in [SOURCES[v]], [1000 * v] and
    [visibility[v]], as far as it can throw. *)
Definition convert (v : value) : M unit :=
  if converts v then ret tt else lift (Throw (TypeError "toString")).

(** The constructor, on the object the base constructor leaves.  The
    module is in strict mode, so [json.content = ...] throws on a [json]
    that is not an object.  The values of [source], [createdAt],
    [updatedAt] and [visibility] are not kept (no method reads them), but
    the conversions that compute them are made, in their place. *)
Definition construct (json : value) : M unit :=
  if negb (truthy json) then ret tt
  else
    match json with
    | VObj props =>
        let content := or_else (lookup "content" props) (VObj []) in
        bodyHtml <- lift (get_prop content "bodyHtml") ;;
        update (set_body (or_else bodyHtml (VStr ""))) ;;;
        convert (lookup "source" props) ;;;
        content_id <- lift (get_prop content "id") ;;
        update (set_id (or_else content_id (lookup "id" props))) ;;;
        createdAt <- lift (get_prop content "createdAt") ;;
        convert createdAt ;;;
        updatedAt <- lift (get_prop content "updatedAt") ;;
        convert updatedAt ;;;
        convert (lookup "vis" props) ;;;
        annotations <- lift (get_prop content "annotations") ;;
        _readAnnotations (or_else annotations (VObj []))
    | _ => lift (Throw (TypeError "content"))
    end.


(** [getFeaturedValue] *)
Definition getFeaturedValue (c : LivefyreContent) : completion value :=
  get_prop (featured c) "value".

(** The loop of [addAttachment] and [addReply]: [found] once an entry
    has the id of [obj]. *)
Definition found_in (l : list Attached) (obj : Attached) : bool :=
  if has_id (attached_id obj)
  then existsb (fun entry =>
                  strict_equal (attached_id entry) (attached_id obj)) l
  else false.

(** [addAttachment] *)
Definition addAttachment (obj : Attached) (c : LivefyreContent)
  : LivefyreContent * list Signal :=
  if found_in (attachments c) obj then (c, [])
  else (set_attachments (attachments c ++ [obj]) c, [Emit_attachment obj]).


(** Whether the constructor can convert what it has to of a state. *)
Definition convertible (props : list (string * value)) : bool :=
  let content := or_else (lookup "content" props) (VObj []) in
  converts (lookup "source" props)
  && match get_prop content "createdAt" with
     | Normal v => converts v
     | Throw _ => true
     end
  && match get_prop content "updatedAt" with
     | Normal v => converts v
     | Throw _ => true
     end
  && converts (lookup "vis" props).

(** [v.k1.k2...], stopping with [undefined] where a property is read off
    [undefined] or [null]. *)
Fixpoint dig (v : value) (path : list string) : value :=
  match path with
  | [] => v
  | k :: rest =>
      match get_prop v k with
      | Normal x => dig x rest
      | Throw _ => VUndefined
      end
  end.


(** Concrete objects: what the base constructor leaves, two attachments
    with ids and one without, and a state with a featured message. *)
Definition blank : LivefyreContent :=
  mkLivefyreContent VUndefined VUndefined VUndefined VUndefined [] [].

Definition photo : Attached := mkAttached 1 (PStr "oembed-1").
Definition video : Attached := mkAttached 2 (PNum 7).
Definition anonymous : Attached := mkAttached 3 PUndefined.

Definition with_photo : LivefyreContent :=
  mkLivefyreContent VUndefined VUndefined VUndefined VUndefined [photo] [].

Definition featured_state : list (string * value) :=
  [("content",
    VObj [("id", VStr "26");
          ("bodyHtml", VStr "<p>hi</p>");
          ("annotations",
           VObj [("featuredmessage", VObj [("value", VNum 3)])])]);
   ("source", VNum 1)].

(** A state whose [source] is an object with a [toString] of its own. *)
Definition stubborn_state : list (string * value) :=
  [("content",
    VObj [("id", VStr "27");
          ("bodyHtml", VStr "<p>ho</p>");
          ("annotations",
           VObj [("featuredmessage", VObj [("value", VNum 4)])])]);
   ("source", VObj [("toString", VNum 1)])].

End LivefyreContent.

(** ** GalleryAttachmentListView *)

Module Gallery.

Section WithOembed.

(** The attachments, and [isTileableAttachment], which the view takes
    from [TiledAttachmentListView.prototype]. *)
Context {Oembed : Type} (isTileableAttachment : Oembed -> bool).

(** The fields [next] and [prev] read or write; [oembedViews] holds the
    [.oembed] of each view. *)
Record GalleryAttachmentListView : Type := mkGallery {
  oembedViews : list Oembed;
  focusedIndex : Z;
  _focusedAttachment : option Oembed
}.

Definition focus_on (tileableIndex : Z) (oembed : Oembed)
           (g : GalleryAttachmentListView) : GalleryAttachmentListView :=
  mkGallery (oembedViews g) tileableIndex (Some oembed).

(** The loop of [next] from view [i] on, up to its call of [render()]
    ([true]: [render] is called, with the fields as returned). *)
Fixpoint next_from (rest : list Oembed) (tileableIndex : Z)
         (g : GalleryAttachmentListView)
  : GalleryAttachmentListView * bool :=
  match rest with
  | [] => (g, false)
  | oembed :: rest' =>
      if negb (isTileableAttachment oembed)
      then next_from rest' tileableIndex g
      else if focusedIndex g + 1 =? tileableIndex
           then (focus_on tileableIndex oembed g, true)
           else next_from rest' (tileableIndex + 1) g
  end.

(** [next] *)
Definition next (g : GalleryAttachmentListView)
  : GalleryAttachmentListView * bool :=
  next_from (oembedViews g) 0 g.

(** The loop of [prev], likewise. *)
Fixpoint prev_from (rest : list Oembed) (tileableIndex : Z)
         (g : GalleryAttachmentListView)
  : GalleryAttachmentListView * bool :=
  match rest with
  | [] => (g, false)
  | oembed :: rest' =>
      if negb (isTileableAttachment oembed)
      then prev_from rest' tileableIndex g
      else if focusedIndex g - 1 =? tileableIndex
           then (focus_on tileableIndex oembed g, true)
           else prev_from rest' (tileableIndex + 1) g
  end.

(** [prev] *)
Definition prev (g : GalleryAttachmentListView)
  : GalleryAttachmentListView * bool :=
  prev_from (oembedViews g) 0 g.

(** The tileable attachments, in the order of their views. *)
Definition tileable (g : GalleryAttachmentListView) : list Oembed :=
  filter isTileableAttachment (oembedViews g).

End WithOembed.

(** A concrete gallery: attachments are numbers, the even ones tileable. *)
Definition some_gallery : GalleryAttachmentListView (Oembed := nat) :=
  mkGallery [10; 11; 12; 13; 14]%nat 0 (Some 10%nat).

End Gallery.

(** * Properties of the collection updater *)

Module UpdaterFacts.

Import Updater.

Section WithTranslator.

Context {Content : Type} {STC : StateToContent Content}.

(** *** What each method and callback does, as equations *)

Lemma stream_eq (u : CollectionUpdater) :
  _stream u = (Normal tt, u, [StreamGetContent (Content := Content)
                                (stream_options u)]).
Proof. reflexivity. Qed.

Lemma read_streams (u : CollectionUpdater) :
  _finishedInitFromBootstrap u = true ->
  _read u = (Normal tt, u, [StreamGetContent (Content := Content)
                              (stream_options u)]).
Proof.
  intros Hfin. unfold _read, bind, this. cbn. rewrite Hfin. reflexivity.
Qed.

Lemma read_reentrant (u : CollectionUpdater) :
  _finishedInitFromBootstrap u = false ->
  _isInitingFromBootstrap u = true ->
  _read (Content := Content) u = (Normal tt, u, []).
Proof.
  intros Hfin Hinit.
  unfold _read, _getBootstrapInit, bind, this. cbn.
  rewrite Hfin. cbn. rewrite Hinit. reflexivity.
Qed.

Lemma read_bootstraps (u : CollectionUpdater) :
  _finishedInitFromBootstrap u = false ->
  _isInitingFromBootstrap u = false ->
  _read (Content := Content) u =
  (Normal tt, set_isIniting true u,
   [BootstrapGetContent (collection_options u)]).
Proof.
  intros Hfin Hinit.
  unfold _read, _getBootstrapInit, bind, this. cbn.
  rewrite Hfin. cbn. rewrite Hinit. reflexivity.
Qed.

Lemma stream_callback_error (err data : value) (u : CollectionUpdater) :
  truthy err = true ->
  stream_callback (Content := Content) err data u =
  (Normal tt, u, [EmitError err]).
Proof. intros Herr. unfold stream_callback. rewrite Herr. reflexivity. Qed.

Lemma stream_callback_timeout (err data timeout : value)
      (u : CollectionUpdater) :
  truthy err = false ->
  get_prop data "timeout" = Normal timeout ->
  truthy timeout = true ->
  stream_callback (Content := Content) err data u =
  (Normal tt, u, [NextTickStream]).
Proof.
  intros Herr Hget Ht. unfold stream_callback, bind, lift.
  rewrite Herr, Hget, Ht. reflexivity.
Qed.

Lemma is_data_props (data : value) :
  is_data data = true ->
  exists timeout,
    get_prop data "timeout" = Normal timeout
    /\ truthy timeout = false
    /\ get_prop data "states" = Normal (states_of data)
    /\ get_prop data "maxEventId" = Normal (maxEventId_of data).
Proof.
  unfold is_data, states_of, maxEventId_of.
  destruct data; cbn; try discriminate; intros H;
    eexists; (split; [reflexivity|]); split;
    try (apply negb_true_iff in H; exact H); split; reflexivity.
Qed.

Lemma enumerable_values (data : value) :
  enumerable data = true ->
  own_values (states_of data) = Normal (state_values data).
Proof.
  unfold enumerable, state_values.
  destruct (own_values (states_of data)); [reflexivity | discriminate].
Qed.

Lemma not_enumerable_throws (data : value) :
  enumerable data = false ->
  own_values (states_of data) = Throw (TypeError "hasOwnProperty").
Proof.
  unfold enumerable, own_values.
  destruct (states_of data) as [| | | | |props]; try discriminate.
  destruct (has_own "hasOwnProperty" props); [reflexivity | discriminate].
Qed.

Lemma stream_callback_data (err data : value) (u : CollectionUpdater) :
  truthy err = false ->
  is_data data = true ->
  enumerable data = true ->
  stream_callback err data u =
  (Normal tt, set_latestEvent (maxEventId_of data) u,
   match batch_of data with
   | [] => [StreamGetContent
              (stream_options (set_latestEvent (maxEventId_of data) u))]
   | _ :: _ => [Push (batch_of data)]
   end).
Proof.
  intros Herr Hdata Henum.
  destruct (is_data_props data Hdata) as (t & Ht & Hf & Hs & Hm).
  unfold stream_callback, _contentsFromStreamData, bind, lift, batch_of.
  rewrite Herr, Ht, Hf, Hs. cbn.
  rewrite (enumerable_values data Henum). cbn. rewrite Hm. cbn.
  destruct (write_all (stc_new data) (state_values data));
    reflexivity.
Qed.

(** The loop stumbles over a state keyed [hasOwnProperty]: the callback
    throws before the cursor is assigned. *)
Lemma stream_callback_shadowed (err data : value) (u : CollectionUpdater) :
  truthy err = false ->
  is_data data = true ->
  enumerable data = false ->
  stream_callback (Content := Content) err data u =
  (Throw (TypeError "hasOwnProperty"), u, []).
Proof.
  intros Herr Hdata Henum.
  destruct (is_data_props data Hdata) as (t & Ht & Hf & Hs & Hm).
  unfold stream_callback, _contentsFromStreamData, bind, lift.
  rewrite Herr, Ht, Hf, Hs. cbn.
  rewrite (not_enumerable_throws data Henum). reflexivity.
Qed.

(** *** One turn of the system *)

Lemma step_stream_response (sys : System) (err data : value)
      (o : Options) (rest : list Options) :
  streamPending sys = o :: rest ->
  step sys (StreamResponse err data) =
  Some (turn (stream_callback err data)
             (mkSystem (updater sys) (bootstrapPending sys) rest
                       (deferred sys) (history sys))).
Proof. intros H. unfold step. rewrite H. reflexivity. Qed.

Lemma turn_read_streams (sys : System) :
  _finishedInitFromBootstrap (updater sys) = true ->
  turn _read sys =
  mkSystem (Content := Content) (updater sys) (bootstrapPending sys)
           (streamPending sys ++ [stream_options (updater sys)])
           (deferred sys)
           (history sys ++ [StreamGetContent (stream_options (updater sys))]).
Proof.
  intros Hfin. unfold turn. rewrite (read_streams _ Hfin). cbn.
  rewrite !app_nil_r, Nat.add_0_r. reflexivity.
Qed.

(** C3: a stream response that signals [timeout] pushes nothing and leaves
    the updater, hence the cursor, as it was; its one effect is a call of
    [nextTick], so no request is made during the callback; when the
    deferred function runs, exactly one stream request goes out, with the
    unchanged cursor. *)
Theorem timeout_defers_one_stream_request
        (sys : System) (err data timeout : value)
        (o : Options) (rest : list Options) :
  truthy err = false ->
  get_prop data "timeout" = Normal timeout ->
  truthy timeout = true ->
  streamPending sys = o :: rest ->
  exists sys1 sys2,
    step sys (StreamResponse err data) = Some sys1
    /\ updater sys1 = updater sys
    /\ history sys1 = history sys ++ [NextTickStream]
    /\ streamPending sys1 = rest
    /\ deferred sys1 = S (deferred sys)
    /\ step sys1 Tick = Some sys2
    /\ updater sys2 = updater sys
    /\ history sys2 =
       history sys1 ++ [StreamGetContent (stream_options (updater sys))]
    /\ streamPending sys2 = rest ++ [stream_options (updater sys)]
    /\ deferred sys2 = deferred sys.
Proof.
  intros Herr Hget Ht Hpend.
  rewrite (step_stream_response sys err data o rest Hpend).
  unfold turn. cbn [updater bootstrapPending streamPending deferred history].
  rewrite (stream_callback_timeout err data timeout _ Herr Hget Ht).
  cbn. rewrite !app_nil_r, Nat.add_1_r.
  eexists. eexists. split; [reflexivity|].
  cbn. rewrite !app_nil_r, Nat.add_0_r. repeat split; reflexivity.
Qed.










(** C2: after [new CollectionUpdater({network, siteId, articleId,
    environment})], the first [read()] and the bootstrap response
    [{collectionSettings: {event, collectionId}}], the first stream request
    goes out with that [collectionId], [commentId] set to that [event], and
    the identity fields of the instance; nothing else has happened but the
    bootstrap request before it. *)
Theorem first_stream_request_after_bootstrap
        (network siteId articleId environment event collectionId : value) :
  option_map history
    (run (start (construct network siteId articleId environment))
         [Read; BootstrapResponse VNull (init_response event collectionId)])
  = Some [BootstrapGetContent
            (mkOptions environment network siteId articleId VUndefined None);
          StreamGetContent
            (mkOptions environment network siteId articleId collectionId
                       (Some event))].
Proof. reflexivity. Qed.

(** *** The bootstrap guard *)

Lemma stream_callback_quiet (err data : value) (u u' : CollectionUpdater)
      (r : completion unit) (fx : list Effect) :
  stream_callback err data u = (r, u', fx) ->
  _isInitingFromBootstrap u' = _isInitingFromBootstrap u
  /\ _finishedInitFromBootstrap u' = _finishedInitFromBootstrap u
  /\ bootstrap_requests fx = [].
Proof.
  destruct (truthy err) eqn:Herr.
  - rewrite (stream_callback_error err data u Herr).
    intros H; inversion H; subst. repeat split.
  - destruct (get_prop data "timeout") as [timeout|e] eqn:Hget.
    + destruct (truthy timeout) eqn:Ht.
      * rewrite (stream_callback_timeout err data timeout u Herr Hget Ht).
        intros H; inversion H; subst. repeat split.
      * assert (Hdata : is_data data = true)
          by (unfold is_data; rewrite Hget, Ht; reflexivity).
        destruct (enumerable data) eqn:Henum.
        -- rewrite (stream_callback_data err data u Herr Hdata Henum).
           intros H; inversion H; subst.
           destruct (batch_of data); repeat split.
        -- rewrite (stream_callback_shadowed err data u Herr Hdata Henum).
           intros H; inversion H; subst. repeat split.
    + unfold stream_callback, bind, lift. rewrite Herr, Hget.
      intros H; inversion H; subst. repeat split.
Qed.

Lemma bootstrap_callback_flags (err data : value) (u u' : CollectionUpdater)
      (r : completion unit) (fx : list (Effect (Content := Content))) :
  bootstrap_callback err data u = (r, u', fx) ->
  _isInitingFromBootstrap u' = false
  /\ _finishedInitFromBootstrap u' = true
  /\ bootstrap_requests fx = [].
Proof.
  unfold bootstrap_callback, read_errback, bind, lift, update, perform, ret.
  destruct (truthy err); destruct data as [| | | | |props]; cbn;
    try (intros H; inversion H; subst; repeat split; fail);
    destruct (lookup "collectionSettings" props); cbn;
    intros H; inversion H; subst; repeat split.
Qed.

Lemma turn_eq (m : M unit) (sys : @System Content)
      (r : completion unit) (u' : CollectionUpdater) (fx : list Effect) :
  m (updater sys) = (r, u', fx) ->
  turn m sys =
  mkSystem u'
           (bootstrapPending sys ++ bootstrap_requests fx)
           (streamPending sys ++ stream_requests fx)
           (deferred sys + scheduled fx)%nat
           (history sys ++ turn_effects r fx).
Proof. intros H. unfold turn. rewrite H. reflexivity. Qed.

Lemma guarded_turn_quiet (m : M unit) (sys : @System Content) :
  (forall u r u' fx,
      m u = (r, u', fx) ->
      _isInitingFromBootstrap u' = _isInitingFromBootstrap u
      /\ _finishedInitFromBootstrap u' = _finishedInitFromBootstrap u
      /\ bootstrap_requests fx = []) ->
  bootstrap_guarded sys -> bootstrap_guarded (turn m sys).
Proof.
  intros Hm Hg.
  destruct (m (updater sys)) as [[r u'] fx] eqn:Hrun.
  rewrite (turn_eq m sys r u' fx Hrun).
  destruct (Hm _ _ _ _ Hrun) as (Hi & Hf & Hb).
  unfold bootstrap_guarded in *. cbn. rewrite Hb, app_nil_r, Hi, Hf.
  exact Hg.
Qed.

Lemma guarded_read (sys : @System Content) :
  bootstrap_guarded sys -> bootstrap_guarded (turn _read sys).
Proof.
  intros Hg.
  destruct (_finishedInitFromBootstrap (updater sys)) eqn:Hfin.
  - rewrite (turn_eq _ sys _ _ _ (read_streams _ Hfin)).
    unfold bootstrap_guarded in *. cbn. rewrite app_nil_r. exact Hg.
  - destruct (_isInitingFromBootstrap (updater sys)) eqn:Hinit.
    + rewrite (turn_eq _ sys _ _ _ (read_reentrant _ Hfin Hinit)).
      unfold bootstrap_guarded in *. cbn. rewrite app_nil_r, Hinit, Hfin.
      rewrite Hinit, Hfin in Hg. exact Hg.
    + rewrite (turn_eq _ sys _ _ _ (read_bootstraps _ Hfin Hinit)).
      unfold bootstrap_guarded in *. cbn.
      destruct Hg as [[Hnone _] | (o & _ & Htrue & _)];
        [|rewrite Hinit in Htrue; discriminate].
      right. exists (collection_options (updater sys)).
      rewrite Hnone. repeat split. exact Hfin.
Qed.

Lemma guarded_step (sys sys' : @System Content) (ev : Event) :
  bootstrap_guarded sys -> step sys ev = Some sys' ->
  bootstrap_guarded sys'.
Proof.
  intros Hg Hstep. destruct ev as [|err data|err data|]; cbn [step] in Hstep.
  - inversion Hstep; subst. apply guarded_read, Hg.
  - destruct (bootstrapPending sys) as [|o rest] eqn:Hpend; [discriminate|].
    inversion Hstep; subst; clear Hstep.
    destruct (bootstrap_callback (Content := Content) err data (updater sys))
      as [[r u'] fx] eqn:Hrun.
    rewrite (turn_eq _ (mkSystem (updater sys) rest (streamPending sys)
                                 (deferred sys) (history sys))
                     r u' fx Hrun).
    destruct (bootstrap_callback_flags _ _ _ _ _ _ Hrun) as (Hi & Hf & Hb).
    unfold bootstrap_guarded in *. cbn. rewrite Hb, app_nil_r.
    destruct Hg as [[Hnone _] | (o' & Hone & _)];
      [rewrite Hpend in Hnone; discriminate|].
    rewrite Hpend in Hone. inversion Hone; subst.
    left. split; [reflexivity | exact Hi].
  - destruct (streamPending sys) as [|o rest]; [discriminate|].
    inversion Hstep; subst; clear Hstep.
    apply guarded_turn_quiet; [|exact Hg].
    intros u r u' fx. apply stream_callback_quiet.
  - destruct (deferred sys) as [|n]; [discriminate|].
    inversion Hstep; subst; clear Hstep.
    apply guarded_turn_quiet; [|exact Hg].
    intros u r u' fx H. rewrite stream_eq in H. inversion H; subst.
    repeat split.
Qed.

Lemma guarded_run (evs : list Event) :
  forall sys sys' : @System Content,
    bootstrap_guarded sys -> run sys evs = Some sys' ->
    bootstrap_guarded sys'.
Proof.
  induction evs as [|ev rest IH]; intros sys sys' Hg Hrun; cbn in Hrun.
  - inversion Hrun; subst. exact Hg.
  - destruct (step sys ev) as [sys1|] eqn:Hstep; [|discriminate].
    exact (IH sys1 sys' (guarded_step sys sys1 ev Hg Hstep) Hrun).
Qed.

(** C4: in every state the updater can reach in which a bootstrap request
    is outstanding, a further [read()] changes nothing at all: no second
    bootstrap request (no request of any kind) is issued and the fields of
    the instance are as before. *)
Theorem reentrant_read_issues_no_second_bootstrap
        (network siteId articleId environment : value)
        (sys : @System Content) :
  reachable (construct network siteId articleId environment) sys ->
  bootstrapPending sys <> [] ->
  step sys Read = Some sys
  /\ List.length (bootstrapPending sys) = 1%nat.
Proof.
  intros [evs Hrun] Hpend.
  assert (Hg : bootstrap_guarded sys).
  { apply (guarded_run evs _ sys) in Hrun; [exact Hrun|].
    left. split; reflexivity. }
  destruct Hg as [[Hnone _] | (o & Hone & Hinit & Hfin)];
    [contradiction|].
  split; [|rewrite Hone; reflexivity].
  cbn [step]. rewrite (turn_eq _ sys _ _ _ (read_reentrant _ Hfin Hinit)).
  cbn. rewrite !app_nil_r, Nat.add_0_r. destruct sys; reflexivity.
Qed.

(** C6, as the code has it: a stream request that fails emits exactly one
    error and does nothing else; no request follows during the callback
    and no field of the instance changes, so there is no errored state:
    the next [read()] issues a stream request with the cursor as it was. *)
Theorem stream_error_emits_once_and_keeps_state
        (sys : @System Content) (err data : value)
        (o : Options) (rest : list Options) :
  truthy err = true ->
  streamPending sys = o :: rest ->
  _finishedInitFromBootstrap (updater sys) = true ->
  exists sys1 sys2,
    step sys (StreamResponse err data) = Some sys1
    /\ updater sys1 = updater sys
    /\ history sys1 = history sys ++ [EmitError err]
    /\ bootstrapPending sys1 = bootstrapPending sys
    /\ streamPending sys1 = rest
    /\ deferred sys1 = deferred sys
    /\ step sys1 Read = Some sys2
    /\ updater sys2 = updater sys
    /\ history sys2 =
       history sys1 ++ [StreamGetContent (stream_options (updater sys))].
Proof.
  intros Herr Hpend Hfin.
  rewrite (step_stream_response sys err data o rest Hpend).
  rewrite (turn_eq _ (mkSystem (updater sys) (bootstrapPending sys) rest
                               (deferred sys) (history sys))
                   _ _ _ (stream_callback_error err data _ Herr)).
  cbn. rewrite !app_nil_r, Nat.add_0_r.
  eexists. eexists. split; [reflexivity|].
  cbn [updater history bootstrapPending streamPending deferred step].
  rewrite turn_read_streams by exact Hfin.
  repeat split; reflexivity.
Qed.

End WithTranslator.

(** *** Concrete runs *)

(** The two systems are the ones a new updater comes to. *)
Example awaiting_bootstrap_reached :
  run (STC := object_states) (start fresh) [Read] = Some awaiting_bootstrap.
Proof. reflexivity. Qed.

Example awaiting_stream_reached :
  run (STC := object_states) (start fresh)
      [Read; BootstrapResponse VNull (init_response (VStr "E0") (VStr "C1"))]
  = Some awaiting_stream.
Proof. reflexivity. Qed.

(** C3 at the response [{timeout: true}], one request outstanding. *)
Lemma timeout_defers_one_stream_request_witness :
  exists sys1 sys2,
    step (STC := object_states) awaiting_stream
         (StreamResponse VNull (VObj [("timeout", VBool true)]))
    = Some sys1
    /\ updater sys1 = streaming_E0
    /\ history sys1 = history awaiting_stream ++ [NextTickStream]
    /\ streamPending sys1 = []
    /\ deferred sys1 = 1%nat
    /\ step (STC := object_states) sys1 Tick = Some sys2
    /\ updater sys2 = streaming_E0
    /\ history sys2 =
       history sys1 ++ [StreamGetContent (stream_options streaming_E0)]
    /\ streamPending sys2 = [] ++ [stream_options streaming_E0]
    /\ deferred sys2 = O.
Proof.
  apply (@timeout_defers_one_stream_request value object_states
           awaiting_stream VNull (VObj [("timeout", VBool true)])
           (VBool true) (stream_options streaming_E0) []);
    reflexivity.
Defined.


(** C4 right after the first [read()]. *)
Lemma reentrant_read_issues_no_second_bootstrap_witness :
  reachable (STC := object_states) fresh awaiting_bootstrap
  /\ bootstrapPending awaiting_bootstrap <> []
  /\ step (STC := object_states) awaiting_bootstrap Read
     = Some awaiting_bootstrap
  /\ List.length (bootstrapPending awaiting_bootstrap) = 1%nat.
Proof.
  assert (Hreach : reachable (STC := object_states) fresh awaiting_bootstrap)
    by (exists [Read]; reflexivity).
  assert (Hpend : bootstrapPending awaiting_bootstrap <> [])
    by discriminate.
  split; [exact Hreach|]. split; [exact Hpend|].
  exact (@reentrant_read_issues_no_second_bootstrap value object_states
           (VStr "n1") (VStr "s1") (VStr "a1") VUndefined
           awaiting_bootstrap Hreach Hpend).
Defined.




(** The batch of that response, and the request an empty one triggers. *)
Example two_states_batch :
  option_map history
    (step (STC := object_states) awaiting_stream
          (StreamResponse VNull (two_states (VStr "E1"))))
  = Some [BootstrapGetContent (collection_options fresh);
          StreamGetContent (stream_options streaming_E0);
          Push [stateA; stateB]].
Proof. reflexivity. Qed.

Example no_states_streams_on :
  option_map history
    (step (STC := object_states) awaiting_stream
          (StreamResponse VNull (no_states (VStr "E1"))))
  = Some [BootstrapGetContent (collection_options fresh);
          StreamGetContent (stream_options streaming_E0);
          StreamGetContent
            (stream_options (set_latestEvent (VStr "E1") streaming_E0))].
Proof. reflexivity. Qed.

(** C6 at a failed request. *)
Lemma stream_error_emits_once_and_keeps_state_witness :
  exists sys1 sys2,
    step (STC := object_states) awaiting_stream
         (StreamResponse (VStr "boom") VUndefined) = Some sys1
    /\ updater sys1 = updater awaiting_stream
    /\ history sys1 = history awaiting_stream ++ [EmitError (VStr "boom")]
    /\ bootstrapPending sys1 = bootstrapPending awaiting_stream
    /\ streamPending sys1 = []
    /\ deferred sys1 = deferred awaiting_stream
    /\ step (STC := object_states) sys1 Read = Some sys2
    /\ updater sys2 = updater awaiting_stream
    /\ history sys2 =
       history sys1
       ++ [StreamGetContent (stream_options (updater awaiting_stream))].
Proof.
  apply (@stream_error_emits_once_and_keeps_state value object_states
           awaiting_stream (VStr "boom") VUndefined
           (stream_options streaming_E0) []);
    reflexivity.
Defined.

(** C6 as stated fails: after bootstrap and a failed stream request, a
    later [read()] does issue a request, the same one as before. *)
Lemma read_after_stream_error_requests_again :
  option_map history
    (run (STC := object_states) (start fresh)
         [Read;
          BootstrapResponse VNull (init_response (VStr "E0") (VStr "C1"));
          StreamResponse (VStr "boom") VUndefined;
          Read])
  = Some [BootstrapGetContent (collection_options fresh);
          StreamGetContent (stream_options streaming_E0);
          EmitError (VStr "boom");
          StreamGetContent (stream_options streaming_E0)]
  /\ option_map (fun sys => List.length (stream_requests (history sys)))
       (run (STC := object_states) (start fresh)
            [Read;
             BootstrapResponse VNull (init_response (VStr "E0") (VStr "C1"));
             StreamResponse (VStr "boom") VUndefined;
             Read])
     <> option_map (fun sys => List.length (stream_requests (history sys)))
          (run (STC := object_states) (start fresh)
               [Read;
                BootstrapResponse VNull
                  (init_response (VStr "E0") (VStr "C1"));
                StreamResponse (VStr "boom") VUndefined]).
Proof. split; [reflexivity | discriminate]. Qed.

(** C5: what a failed bootstrap request leads to.  With a response next
    to the error, the error is emitted and the stream request goes out all
    the same.  With no response, the errback throws on
    [initResponse.collectionSettings] after the error was emitted and the
    instance was marked as initialised, so the next [read()] streams with
    neither collection id nor cursor. *)
Lemma bootstrap_error_does_not_stop_streaming :
  option_map history
    (run (STC := object_states) (start fresh)
         [Read;
          BootstrapResponse (VStr "boom")
                            (init_response (VStr "E0") (VStr "C1"))])
  = Some [BootstrapGetContent (collection_options fresh);
          EmitError (VStr "boom");
          StreamGetContent (stream_options streaming_E0)]
  /\ option_map (fun sys => (history sys,
                             _finishedInitFromBootstrap (updater sys)))
       (run (STC := object_states) (start fresh)
            [Read; BootstrapResponse (VStr "boom") VUndefined])
     = Some ([BootstrapGetContent (collection_options fresh);
              EmitError (VStr "boom");
              Uncaught (TypeError "collectionSettings")],
             true)
  /\ option_map history
       (run (STC := object_states) (start fresh)
            [Read; BootstrapResponse (VStr "boom") VUndefined; Read])
     = Some [BootstrapGetContent (collection_options fresh);
             EmitError (VStr "boom");
             Uncaught (TypeError "collectionSettings");
             StreamGetContent
               (mkOptions VUndefined (VStr "n1") (VStr "s1") (VStr "a1")
                          VUndefined (Some VUndefined))].
Proof. repeat split. Qed.

End UpdaterFacts.

(** * Properties of the stash *)

Module StashFacts.

Import Stash.

Lemma exec_app (ops1 ops2 : list Op) :
  forall st,
    exec st (ops1 ++ ops2) =
    let '(st1, out1) := exec st ops1 in
    let '(st2, out2) := exec st1 ops2 in
    (st2, out1 ++ out2).
Proof.
  induction ops1 as [|op ops1 IH]; intros st; cbn.
  - destruct (exec st ops2); reflexivity.
  - destruct op; try apply IH.
    destruct (release st) as [[entity|] st']; [|apply IH].
    rewrite IH. destruct (exec st' ops1) as [st1 out1].
    destruct (exec st1 ops2); reflexivity.
Qed.

(** With no goal left nothing is released, whatever else happens, until
    the goal is raised. *)
Lemma exec_blocked (ops : list Op) :
  forall st,
    _goal st <= 0 ->
    forallb (fun op => negb (raises_goal op)) ops = true ->
    snd (exec st ops) = [] /\ _goal (fst (exec st ops)) <= 0.
Proof.
  induction ops as [|op ops IH]; intros st Hgoal Hops; cbn.
  - split; [reflexivity | exact Hgoal].
  - cbn in Hops. apply andb_true_iff in Hops. destruct Hops as [Hop Hops].
    destruct op as [entity|n|n|]; cbn in Hop.
    + apply IH; [exact Hgoal | exact Hops].
    + apply IH; [|exact Hops]. cbn.
      apply negb_true_iff, Z.ltb_ge in Hop. exact Hop.
    + apply IH; [exact Hgoal | exact Hops].
    + unfold release. destruct (_stack st) as [|top rest].
      * apply IH; [exact Hgoal | exact Hops].
      * destruct (Z.ltb_spec 0 (_goal st)) as [Hlt|_]; [lia|].
        apply IH; [exact Hgoal | exact Hops].
Qed.

Lemma exec_releases_blocked (k : nat) (st : Stash) :
  _goal st <= 0 -> exec st (repeat Release k) = (st, []).
Proof.
  intros Hgoal. induction k as [|k IH]; [reflexivity|]. cbn.
  unfold release. destruct (_stack st) as [|top rest]; [exact IH|].
  destruct (Z.ltb_spec 0 (_goal st)) as [Hlt|_]; [lia | exact IH].
Qed.

(** C8: on the stash as the specification describes it.  After [stack(a)]
    and [stack(b)], [setGoal(0)] blocks every release, whatever the
    cadence counter and the interval are and however they change, as long
    as no [setGoal(n)] with [n > 0] is called; once one is, the releases
    hand out [b] first and, if the goal allows a second one, [a] next. *)
Theorem stash_is_lifo_and_gated_by_goal (st : Stash) (a b : Content) :
  (forall ops,
      forallb (fun op => negb (raises_goal op)) ops = true ->
      snd (exec st ([Stack a; Stack b; SetGoal 0] ++ ops)) = [])
  /\ (forall k n,
         0 < n ->
         snd (exec st ([Stack a; Stack b; SetGoal 0] ++ repeat Release k
                       ++ [SetGoal n; Release; Release]))
         = if 1 <? n then [b; a] else [b]).
Proof.
  split.
  - intros ops Hops. cbn [app exec].
    apply exec_blocked; [cbn; lia | exact Hops].
  - intros k n Hn. cbn [app exec].
    rewrite exec_app, exec_releases_blocked by (cbn; lia).
    cbn. destruct (Z.ltb_spec 0 n) as [_|Hle]; [|lia]. cbn.
    destruct (Z.ltb_spec 0 (n - 1)), (Z.ltb_spec 1 n); try lia; reflexivity.
Qed.

(** C8 on a stash whose cadence counter stands at its interval. *)
Lemma stash_is_lifo_and_gated_by_goal_witness :
  snd (exec (mkStash [] 3 5 5)
            ([Stack (mkContent 1 None); Stack (mkContent 2 None); SetGoal 0]
             ++ [Release; SetCount 0; Release; SetGoal (-1); Release]))
  = []
  /\ snd (exec (mkStash [] 3 5 5)
               ([Stack (mkContent 1 None); Stack (mkContent 2 None);
                 SetGoal 0]
                ++ repeat Release 2 ++ [SetGoal 2; Release; Release]))
     = [mkContent 2 None; mkContent 1 None].
Proof.
  destruct (stash_is_lifo_and_gated_by_goal
              (mkStash [] 3 5 5) (mkContent 1 None) (mkContent 2 None))
    as [Hgate Hlifo].
  split.
  - apply Hgate. reflexivity.
  - apply (Hlifo 2%nat 2). reflexivity.
Defined.

End StashFacts.

(** * Properties of the bounded content list *)

Module ListViewFacts.

Import Stash ListView.

(** *** The simple base list obeys the laws *)

Lemma view_eqb_eq (a b : ContentView) : view_eqb a b = true <-> a = b.
Proof.
  destruct a as [ra [ca ia]], b as [rb [cb ib]]. unfold view_eqb. cbn.
  rewrite !andb_true_iff, !Nat.eqb_eq. split.
  - intros [[Hr Hc] Hi]. subst.
    destruct ia as [i|], ib as [j|]; try discriminate.
    + apply String.eqb_eq in Hi. subst. reflexivity.
    + reflexivity.
  - intros H. inversion H; subst. repeat split.
    destruct ib as [j|]; [apply String.eqb_refl | reflexivity].
Qed.

Lemma remove_first_last (vs : list ContentView) (v : ContentView) :
  ~ In v vs -> remove_first (vs ++ [v]) v = vs.
Proof.
  induction vs as [|w vs IH]; intros Hnot; cbn.
  - rewrite (proj2 (view_eqb_eq v v) eq_refl). reflexivity.
  - destruct (view_eqb w v) eqn:Heq.
    + apply view_eqb_eq in Heq. subst. exfalso. apply Hnot. left. reflexivity.
    + rewrite IH; [reflexivity|]. intros Hin. apply Hnot. right. exact Hin.
Qed.

Lemma splice_Add (vs : list ContentView) (v : ContentView)
      (index : option Z) :
  Add v vs (splice vs v index).
Proof.
  unfold splice. destruct index as [i|].
  - rewrite <- (firstn_skipn (Z.to_nat i) vs) at 1. apply Add_app.
  - rewrite <- (app_nil_r vs) at 1. apply Add_app.
Qed.

Lemma simple_list_laws : ListViewLaws simple_list.
Proof.
  split.
  - intros vs v index Hnot. cbn.
    pose proof (splice_Add vs v index) as HAdd.
    split; [exact (Add_length HAdd)|].
    split; [intros w; rewrite (Add_in HAdd); cbn; intuition congruence|].
    intros Hnd. apply (NoDup_Add HAdd). split; assumption.
  - intros vs v Hnot. apply remove_first_last, Hnot.
Qed.

Section WithBase.

Context {B : ListViewBase} {L : ListViewLaws B}.

(** *** The parts of [add] *)

Lemma cadence_views (s : ContentListView) :
  views (cadence s) = views s
  /\ next_ref (cadence s) = next_ref s
  /\ _maxVisibleItems (cadence s) = _maxVisibleItems s
  /\ _bound (cadence s) = _bound s
  /\ more (cadence s) = more s
  /\ _stash (cadence s) = _stash s.
Proof.
  unfold cadence. cbn.
  destruct (_count (feature s) + 1 =? _interval (feature s));
    repeat split.
Qed.

Lemma cadence_feature (s : ContentListView) :
  feature (cadence s) =
  if _count (feature s) + 1 =? _interval (feature s)
  then setGoal 1 (set_count (-1) (feature s))
  else set_count (_count (feature s) + 1) (feature s).
Proof.
  unfold cadence. cbn.
  destruct (_count (feature s) + 1 =? _interval (feature s)); reflexivity.
Qed.

Lemma last_view_split (vs : list ContentView) (v : ContentView)
      (rest : list ContentView) :
  rev vs = v :: rest -> vs = rev rest ++ [v].
Proof.
  intros H. rewrite <- (rev_involutive vs), H. reflexivity.
Qed.

Lemma the_stash_saveForLater (c : Content) (s : ContentListView) :
  the_stash (saveForLater c s) = stack c (the_stash s).
Proof.
  unfold the_stash, saveForLater.
  destruct (_stash s) eqn:H; cbn; rewrite ?H; reflexivity.
Qed.

Lemma fresh_view_not_listed (vs : list ContentView) (n : nat) (c : Content) :
  Forall (fun v => (view_ref v < n)%nat) vs -> ~ In (mkView n c) vs.
Proof.
  intros Hall Hin. rewrite Forall_forall in Hall.
  specialize (Hall _ Hin). cbn in Hall. lia.
Qed.

Lemma listed_after_add (vs : list ContentView) (n : nat) (c : Content)
      (index : option Z) :
  NoDup vs ->
  Forall (fun v => (view_ref v < n)%nat) vs ->
  NoDup (ListView_add vs (mkView n c) index)
  /\ Forall (fun v => (view_ref v < S n)%nat)
            (ListView_add vs (mkView n c) index)
  /\ List.length (ListView_add vs (mkView n c) index) = S (List.length vs).
Proof.
  intros Hnd Hall.
  destruct (ListView_add_fresh vs (mkView n c) index
              (fresh_view_not_listed vs n c Hall)) as (Hlen & Hin & Hnd').
  split; [exact (Hnd' Hnd)|]. split; [|exact Hlen].
  apply Forall_forall. intros w Hw. apply Hin in Hw.
  destruct Hw as [-> | Hw]; [cbn; lia|].
  rewrite Forall_forall in Hall. specialize (Hall _ Hw). lia.
Qed.


(** [add] of a content that has no view yet, with no room left. *)
Lemma add_new_overflowing (c : Content) (index : option Z)
      (s : ContentListView) (vs : list ContentView) (v : ContentView) :
  _bound s = true ->
  _maxVisibleItems s < Z.of_nat (List.length (views s)) ->
  views s = vs ++ [v] ->
  ~ In v vs ->
  add_new c index s =
  (Normal tt,
   cadence (set_views
              (ListView_add vs (mkView (next_ref s) c) index)
              (saveForLater (content v)
                 (set_more (setGoal 0 (more s))
                           (snd (createContentView c s)))))).
Proof.
  intros Hb Hlt Hviews Hnot.
  destruct s as [views0 maxVisible bound more0 stash0 feature0 ref0].
  cbn in Hb, Hlt, Hviews. subst views0 bound.
  unfold add_new, createContentView, _hasVisibleVacancy, displace.
  cbn. rewrite Z.gtb_ltb.
  destruct (Z.ltb_spec maxVisible (Z.of_nat (List.length (vs ++ [v]))))
    as [_|Hle]; [|lia].
  cbn. rewrite rev_app_distr. cbn.
  destruct stash0; cbn; rewrite (ListView_remove_last vs v Hnot);
    reflexivity.
Qed.


Lemma the_stash_cadence (s : ContentListView) :
  the_stash (cadence s) = the_stash s.
Proof.
  destruct (cadence_views s) as (_ & _ & _ & _ & Hm & Hs).
  unfold the_stash. rewrite Hm, Hs. reflexivity.
Qed.


(** With the default stash ([this._stash === this.more]) an overflowing
    [add] leaves the displaced content on top of a stash whose goal is
    [0]: a release hands out nothing until the goal is raised, and then
    that content first. *)
Lemma displaced_content_waits_for_a_goal
      (c : Content) (index : option Z) (s : ContentListView)
      (vs : list ContentView) (v : ContentView) (n : Z) :
  _bound s = true ->
  _stash s = None ->
  _maxVisibleItems s < Z.of_nat (List.length (views s)) ->
  views s = vs ++ [v] ->
  ~ In v vs ->
  0 < n ->
  let st := the_stash (snd (add_new c index s)) in
  st = stack (content v) (setGoal 0 (more s))
  /\ fst (release st) = None
  /\ fst (release (setGoal n st)) = Some (content v).
Proof.
  intros Hb Hst Hlt Hviews Hnot Hn.
  rewrite (add_new_overflowing c index s vs v Hb Hlt Hviews Hnot).
  cbn [snd]. rewrite the_stash_cadence.
  unfold saveForLater, the_stash. cbn. rewrite Hst. cbn. rewrite ?Hst.
  split; [reflexivity|]. split; [reflexivity|].
  unfold release. cbn.
  destruct (Z.ltb_spec 0 n); [reflexivity | lia].
Qed.

(** *** The cadence counter *)

Lemma add_new_feature (c : Content) (index : option Z)
      (s : ContentListView) :
  fst (add_new c index s) = Normal tt ->
  feature (snd (add_new c index s)) = feature (cadence s).
Proof.
  destruct s as [views0 maxVisible bound more0 stash0 feature0 ref0].
  unfold add_new, createContentView, displace. cbn.
  destruct (bound && negb _); cbn.
  - destruct (rev views0) as [|v rest]; cbn; [discriminate|].
    intros _. rewrite !cadence_feature.
    destruct stash0; reflexivity.
  - intros _. rewrite !cadence_feature. reflexivity.
Qed.

Lemma cadence_counting (k : nat) (s : ContentListView) :
  _count (feature s) = -1 ->
  Z.of_nat k <= _interval (feature s) ->
  feature (Nat.iter k cadence s) = set_count (Z.of_nat k - 1) (feature s).
Proof.
  intros Hcount. induction k as [|k IH]; intros Hk.
  - cbn. rewrite <- Hcount. destruct (feature s); reflexivity.
  - change (Nat.iter (S k) cadence s) with (cadence (Nat.iter k cadence s)).
    replace (Z.of_nat (S k) - 1) with (Z.of_nat k - 1 + 1) by lia.
    rewrite cadence_feature, IH by lia.
    unfold set_count. cbn [_count _interval _stack _goal].
    destruct (Z.eqb_spec (Z.of_nat k - 1 + 1) (_interval (feature s)));
      [lia | reflexivity].
Qed.

(** C9, as the code has it: each [add] that makes a new view increments
    the cadence counter of the feature stream once; when the incremented
    counter equals the interval, the counter is set to [-1] and the goal
    of the feature stream to [1]; otherwise nothing else changes.  From
    [-1] the counter needs [_interval + 1] increments to equal the
    interval again: the first [_interval] of them leave the goal alone. *)
Theorem cadence_counts_and_resets_below_zero
        (c : Content) (index : option Z) (s : ContentListView) :
  getContentView (views s) c = None ->
  fst (add (AContent c) index s) = Normal tt ->
  feature (snd (add (AContent c) index s))
  = (if _count (feature s) + 1 =? _interval (feature s)
     then setGoal 1 (set_count (-1) (feature s))
     else set_count (_count (feature s) + 1) (feature s))
  /\ (forall t : ContentListView,
         _count (feature t) = -1 ->
         0 <= _interval (feature t) ->
         (forall k, Z.of_nat k <= _interval (feature t) ->
                    feature (Nat.iter k cadence t)
                    = set_count (Z.of_nat k - 1) (feature t))
         /\ feature (Nat.iter (S (Z.to_nat (_interval (feature t))))
                              cadence t)
            = setGoal 1 (feature t)).
Proof.
  intros Hnone Hok. unfold add in *. rewrite Hnone in *.
  split.
  - rewrite (add_new_feature c index s Hok). apply cadence_feature.
  - intros t Hcount Hint. split.
    + intros k Hk. apply cadence_counting; assumption.
    + change (Nat.iter (S ?n) cadence t)
        with (cadence (Nat.iter (Z.to_nat (_interval (feature t)))
                                cadence t)).
      rewrite cadence_feature, cadence_counting by lia.
      rewrite Z2Nat.id by lia.
      unfold set_count, setGoal. cbn [_count _interval _stack _goal].
      destruct (Z.eqb_spec (_interval (feature t) - 1 + 1)
                           (_interval (feature t))); [|lia].
      rewrite <- Hcount. reflexivity.
Qed.

End WithBase.

(** *** Concrete runs *)

(** C9 as stated fails: counting from [0] with interval [2], the second
    insertion reaches the interval and resets the counter, but the next
    interval is three insertions long. *)
Lemma interval_after_reset_is_one_longer :
  map (fun s => (_count (feature s), _goal (feature s)))
      (add_each (B := simple_list)
                [item 0; item 1; item 2; item 3; item 4]
                (construct None None empty_stash every_second))
  = [(1, 0); (-1, 1); (0, 1); (1, 1); (-1, 1)].
Proof. reflexivity. Qed.

(** C9 at the second insertion into [short_list]. *)
Lemma cadence_counts_and_resets_below_zero_witness :
  feature (snd (add (B := simple_list) (AContent (item 1)) None
                  (snd (add (B := simple_list) (AContent (item 0)) None
                          short_list))))
  = mkStash [] 1 (-1) 2
  /\ feature (Nat.iter 3 cadence full_list)
     = mkStash [] 1 (-1) 2.
Proof.
  destruct (@cadence_counts_and_resets_below_zero simple_list
              (item 1) None
              (snd (add (B := simple_list) (AContent (item 0)) None
                      short_list))
              eq_refl eq_refl) as [Hadd Hperiod].
  split; [exact Hadd|].
  destruct (Hperiod full_list eq_refl) as [_ Hnext];
    [discriminate | exact Hnext].
Defined.



End ListViewFacts.

(** * The updater over whole runs *)

Module UpdaterRunFacts.

Import Updater UpdaterRuns UpdaterFacts.

Section WithTranslator.

Context {Content : Type} {STC : StateToContent Content}.

(** *** Every outcome of the two callbacks *)

Lemma stream_callback_cases (err data : value) (u : CollectionUpdater) :
  let u1 := set_latestEvent (maxEventId_of data) u in
  (truthy err = true
   /\ stream_callback err data u = (Normal tt, u, [EmitError err]))
  \/ (truthy err = false
      /\ exists e, stream_callback err data u = (Throw e, u, []))
  \/ (truthy err = false
      /\ stream_callback err data u = (Normal tt, u, [NextTickStream]))
  \/ (truthy err = false
      /\ batch_of data <> []
      /\ stream_callback err data u = (Normal tt, u1, [Push (batch_of data)]))
  \/ (truthy err = false
      /\ batch_of data = []
      /\ stream_callback err data u
         = (Normal tt, u1, [StreamGetContent (stream_options u1)])).
Proof.
  intros u1. destruct (truthy err) eqn:Herr.
  - left. split; [reflexivity|]. apply stream_callback_error, Herr.
  - right. destruct (get_prop data "timeout") as [timeout|e] eqn:Hget.
    + destruct (truthy timeout) eqn:Ht.
      * right. left. split; [reflexivity|].
        apply (stream_callback_timeout err data timeout u Herr Hget Ht).
      * assert (Hdata : is_data data = true)
          by (unfold is_data; rewrite Hget, Ht; reflexivity).
        destruct (enumerable data) eqn:Henum.
        -- right. right.
           rewrite (stream_callback_data err data u Herr Hdata Henum).
           destruct (batch_of data) eqn:Hb.
           ++ right. repeat split.
           ++ left. repeat split. discriminate.
        -- left. split; [reflexivity|]. eexists.
           apply (stream_callback_shadowed err data u Herr Hdata Henum).
    + left. split; [reflexivity|]. exists e.
      unfold stream_callback, bind, lift. rewrite Herr, Hget. reflexivity.
Qed.

Lemma bootstrap_callback_cases (err data : value) (u : CollectionUpdater) :
  let u1 := set_finishedInit true (set_isIniting false u) in
  let pre := if truthy err then [EmitError (Content := Content) err]
             else [] in
  (exists e, bootstrap_callback err data u = (Throw e, u1, pre))
  \/ (exists event collectionId,
         let u2 := set_collectionId collectionId
                     (set_latestEvent event u1) in
         bootstrap_callback err data u
         = (Normal tt, u2, pre ++ [StreamGetContent (stream_options u2)])).
Proof.
  unfold bootstrap_callback, read_errback, bind, lift, update, perform, ret.
  destruct (truthy err); destruct data as [| | | | |props]; cbn;
    try (left; eexists; reflexivity);
    try (right; eexists; eexists; reflexivity);
    destruct (lookup "collectionSettings" props); cbn;
    try (left; eexists; reflexivity);
    right; eexists; eexists; reflexivity.
Qed.

(** *** The invariant of the runs *)

Lemma pushes_app (fx1 fx2 : list (Effect (Content := Content))) :
  pushes (fx1 ++ fx2) = pushes fx1 ++ pushes fx2.
Proof. apply flat_map_app. Qed.

Lemma stream_requests_app (fx1 fx2 : list (Effect (Content := Content))) :
  stream_requests (fx1 ++ fx2) = stream_requests fx1 ++ stream_requests fx2.
Proof. apply flat_map_app. Qed.

Lemma bootstrap_requests_app (fx1 fx2 : list (Effect (Content := Content))) :
  bootstrap_requests (fx1 ++ fx2)
  = bootstrap_requests fx1 ++ bootstrap_requests fx2.
Proof. apply flat_map_app. Qed.

Ltac project_history :=
  rewrite ?pushes_app, ?stream_requests_app, ?bootstrap_requests_app;
  cbn [pushes stream_requests bootstrap_requests flat_map app turn_effects];
  rewrite ?app_nil_r.

Lemma settled_start (network siteId articleId environment : value) :
  settled network siteId articleId environment
          (start (Content := Content)
                 (construct network siteId articleId environment)).
Proof.
  unfold settled, start, construct, bootstrap_guarded. cbn.
  repeat split; try discriminate; try (constructor; fail).
  left. split; reflexivity.
Qed.

Lemma names_collection_stream_options
      (network siteId articleId environment : value) (u : CollectionUpdater) :
  _network u = network -> _siteId u = siteId ->
  _articleId u = articleId -> _environment u = environment ->
  names_collection network siteId articleId environment (stream_options u).
Proof. intros; repeat split; assumption. Qed.

(** Once initialised, a turn that keeps the identity and the flags and
    requests nothing from the bootstrap service keeps the invariant. *)
Lemma settled_streaming_turn
      (network siteId articleId environment : value)
      (sys : @System Content) (u' : CollectionUpdater)
      (sp : list Options) (d : nat) (fx : list Effect) :
  settled network siteId articleId environment sys ->
  _finishedInitFromBootstrap (updater sys) = true ->
  _network u' = _network (updater sys) ->
  _siteId u' = _siteId (updater sys) ->
  _articleId u' = _articleId (updater sys) ->
  _environment u' = _environment (updater sys) ->
  _isInitingFromBootstrap u' = _isInitingFromBootstrap (updater sys) ->
  _finishedInitFromBootstrap u' = true ->
  bootstrap_requests fx = [] ->
  Forall (names_collection network siteId articleId environment)
         (stream_requests fx) ->
  Forall (fun cs => cs <> []) (pushes fx) ->
  settled network siteId articleId environment
          (mkSystem u' (bootstrapPending sys) sp d (history sys ++ fx)).
Proof.
  intros (Hid & Hg & Hpend & Hbefore & Hafter & Hreqs & Hpush)
         Hfin Hn Hs Ha He Hi Hf Hb Hr Hp.
  destruct Hid as (Hn0 & Hs0 & Ha0 & He0).
  destruct (Hafter Hfin) as [Hnone Hboot].
  unfold settled, bootstrap_guarded.
  cbn [updater bootstrapPending streamPending deferred history].
  rewrite pushes_app, stream_requests_app, bootstrap_requests_app, Hb,
    app_nil_r, Hn, Hs, Ha, He, Hi, Hf.
  split; [repeat split; assumption|].
  split; [destruct Hg as [Hl | (o & Ho & _)];
          [left; exact Hl | rewrite Hnone in Ho; discriminate]|].
  split; [exact Hpend|].
  split; [discriminate|].
  split; [intros _; split; assumption|].
  split; apply Forall_app; split; assumption.
Qed.

Lemma settled_step (network siteId articleId environment : value)
      (sys sys' : @System Content) (ev : Event) :
  settled network siteId articleId environment sys ->
  step sys ev = Some sys' ->
  settled network siteId articleId environment sys'.
Proof.
  intros Hset Hstep.
  pose proof Hset as (Hid & Hg & Hpend & Hbefore & Hafter & Hreqs & Hpush).
  destruct Hid as (Hn & Hs & Ha & He).
  destruct ev as [|err data|err data|]; cbn [step] in Hstep.
  - (* read() *)
    inversion Hstep; subst sys'; clear Hstep.
    destruct (_finishedInitFromBootstrap (updater sys)) eqn:Hfin.
    + rewrite (turn_eq _ sys _ _ _ (read_streams _ Hfin)).
      cbn [bootstrap_requests flat_map app turn_effects]. rewrite app_nil_r.
      apply settled_streaming_turn; try assumption; try reflexivity.
      * constructor; [|constructor].
        apply names_collection_stream_options; assumption.
      * constructor.
    + destruct (_isInitingFromBootstrap (updater sys)) eqn:Hinit.
      * rewrite (turn_eq _ sys _ _ _ (read_reentrant _ Hfin Hinit)).
        cbn. rewrite !app_nil_r, Nat.add_0_r.
        destruct sys; exact Hset.
      * rewrite (turn_eq _ sys _ _ _ (read_bootstraps _ Hfin Hinit)).
        destruct (Hbefore eq_refl) as (Hb & Hsr & Hsp & Hd & Hp & Hc & Hl).
        destruct Hg as [[Hnone _] | (o & _ & Htrue & _)];
          [|rewrite Hinit in Htrue; discriminate].
        unfold settled, bootstrap_guarded.
        cbn [updater bootstrapPending streamPending deferred history
             set_isIniting _network _siteId _articleId _environment
             _isInitingFromBootstrap _finishedInitFromBootstrap
             _collectionId _latestEvent].
        project_history. cbn. rewrite ?app_nil_r.
        rewrite Hb, Hsr, Hsp, Hd, Hp, Hnone, Hfin. cbn.
        unfold collection_options. rewrite Hn, Hs, Ha, He, Hc.
        split; [repeat split|].
        split; [right; eexists; repeat split|].
        split; [repeat constructor|].
        split; [intros _; repeat split; assumption|].
        split; [discriminate|].
        split; constructor.
  - (* the bootstrap response *)
    destruct (bootstrapPending sys) as [|o rest] eqn:Hbp; [discriminate|].
    inversion Hstep; subst sys'; clear Hstep.
    destruct Hg as [[Hnone _] | (o' & Hone & Hinit & Hfin)];
      [rewrite Hbp in Hnone; discriminate|].
    rewrite Hbp in Hone. inversion Hone; subst o' rest; clear Hone.
    destruct (Hbefore Hfin) as (Hb & Hsr & Hsp & Hd & Hp & Hc & Hl).
    inversion Hpend as [|? ? Ho _]; subst o.
    destruct (bootstrap_callback_cases err data (updater sys))
      as [[e Hrun] | (event & cid & Hrun)];
      rewrite (turn_eq _ (mkSystem (updater sys) [] (streamPending sys)
                                   (deferred sys) (history sys))
                       _ _ _ Hrun);
      unfold settled, bootstrap_guarded;
      cbn [updater bootstrapPending streamPending deferred history
           set_isIniting set_finishedInit set_collectionId set_latestEvent
           _network _siteId _articleId _environment
           _isInitingFromBootstrap _finishedInitFromBootstrap
           _collectionId _latestEvent];
      project_history;
      destruct (truthy err); cbn; project_history; cbn;
      rewrite ?app_nil_r, Hb, Hsr, Hp; cbn;
      (split; [repeat split; assumption|]);
      (split; [left; split; reflexivity|]);
      (split; [constructor|]);
      (split; [discriminate|]);
      (split; [intros _; split; reflexivity|]);
      (split; repeat constructor; cbn; assumption).
  - (* a stream response *)
    destruct (streamPending sys) as [|o rest] eqn:Hsp; [discriminate|].
    inversion Hstep; subst sys'; clear Hstep.
    assert (Hfin : _finishedInitFromBootstrap (updater sys) = true).
    { destruct (_finishedInitFromBootstrap (updater sys)); [reflexivity|].
      destruct (Hbefore eq_refl) as (_ & _ & Hnil & _). discriminate. }
    destruct (stream_callback_cases err data (updater sys))
      as [[_ Hrun] | [[_ [e Hrun]] | [[_ Hrun] | [(_ & Hne & Hrun)
                                                  | (_ & Hnil & Hrun)]]]];
      rewrite (turn_eq _ (mkSystem (updater sys) (bootstrapPending sys) rest
                                   (deferred sys) (history sys))
                       _ _ _ Hrun);
      cbn [updater bootstrapPending streamPending deferred history
           bootstrap_requests flat_map app];
      rewrite ?app_nil_r;
      apply (settled_streaming_turn network siteId articleId environment sys);
      try assumption; try reflexivity;
      repeat constructor; try assumption.
  - (* a deferred call *)
    destruct (deferred sys) as [|n] eqn:Hd; [discriminate|].
    inversion Hstep; subst sys'; clear Hstep.
    assert (Hfin : _finishedInitFromBootstrap (updater sys) = true).
    { destruct (_finishedInitFromBootstrap (updater sys)); [reflexivity|].
      destruct (Hbefore eq_refl) as (_ & _ & _ & Hzero & _). discriminate. }
    rewrite (turn_eq _ (mkSystem (updater sys) (bootstrapPending sys)
                                 (streamPending sys) n (history sys))
                     _ _ _ (stream_eq _)).
    cbn [updater bootstrapPending streamPending deferred history
         bootstrap_requests flat_map app turn_effects].
    rewrite ?app_nil_r.
    apply (settled_streaming_turn network siteId articleId environment sys);
      try assumption; try reflexivity;
      repeat constructor; assumption.
Qed.

Lemma settled_run (network siteId articleId environment : value)
      (evs : list Event) :
  forall sys sys' : @System Content,
    settled network siteId articleId environment sys ->
    run sys evs = Some sys' ->
    settled network siteId articleId environment sys'.
Proof.
  induction evs as [|ev rest IH]; intros sys sys' Hset Hrun; cbn in Hrun.
  - inversion Hrun; subst. exact Hset.
  - destruct (step sys ev) as [sys1|] eqn:Hstep; [|discriminate].
    exact (IH sys1 sys' (settled_step _ _ _ _ sys sys1 ev Hset Hstep) Hrun).
Qed.

Lemma settled_reachable (network siteId articleId environment : value)
      (sys : @System Content) :
  reachable (construct network siteId articleId environment) sys ->
  settled network siteId articleId environment sys.
Proof.
  intros [evs Hrun].
  exact (settled_run _ _ _ _ evs _ sys (settled_start _ _ _ _) Hrun).
Qed.

(** X1: over its whole life, whatever the services answer and however
    often [read()] is called, the updater sends at most one bootstrap
    request: none before the first [read()], and from then on exactly the
    one for its collection, with no collection id.  A failed bootstrap is
    never retried. *)
Theorem bootstrap_is_requested_once
        (network siteId articleId environment : value)
        (sys : @System Content) :
  reachable (construct network siteId articleId environment) sys ->
  bootstrap_requests (history sys)
  = if _finishedInitFromBootstrap (updater sys)
       || _isInitingFromBootstrap (updater sys)
    then [mkOptions environment network siteId articleId VUndefined None]
    else [].
Proof.
  intros Hreach.
  destruct (settled_reachable _ _ _ _ sys Hreach)
    as (_ & Hg & Hpend & Hbefore & Hafter & _).
  destruct (_finishedInitFromBootstrap (updater sys)) eqn:Hfin.
  - apply Hafter. reflexivity.
  - destruct (Hbefore eq_refl) as (Hb & _). rewrite Hb.
    destruct Hg as [[Hnone Hinit] | (o & Hone & Hinit & _)];
      rewrite Hinit; cbn.
    + exact Hnone.
    + rewrite Hone in *. inversion Hpend; subst. reflexivity.
Qed.

(** X2: every request the updater ever sends, to either service, names
    the network, site, article and environment it was constructed with. *)
Theorem requests_name_the_collection
        (network siteId articleId environment : value)
        (sys : @System Content) :
  reachable (construct network siteId articleId environment) sys ->
  Forall (names_collection network siteId articleId environment)
         (bootstrap_requests (history sys) ++ stream_requests (history sys)).
Proof.
  intros Hreach.
  destruct (settled_reachable _ _ _ _ sys Hreach)
    as (_ & Hg & Hpend & Hbefore & Hafter & Hreqs & _).
  apply Forall_app. split; [|exact Hreqs].
  destruct (_finishedInitFromBootstrap (updater sys)) eqn:Hfin.
  - destruct (Hafter eq_refl) as [_ Hb]. rewrite Hb.
    repeat constructor.
  - destruct (Hbefore eq_refl) as (Hb & _). rewrite Hb.
    eapply Forall_impl; [|exact Hpend].
    intros o <-. repeat split.
Qed.

(** X3: until the bootstrap callback has run, the updater has sent
    nothing to the stream service, has pushed nothing, has deferred
    nothing, and holds neither collection id nor cursor. *)
Theorem nothing_streams_before_bootstrap
        (network siteId articleId environment : value)
        (sys : @System Content) :
  reachable (construct network siteId articleId environment) sys ->
  _finishedInitFromBootstrap (updater sys) = false ->
  stream_requests (history sys) = []
  /\ pushes (history sys) = []
  /\ streamPending sys = []
  /\ deferred sys = O
  /\ _collectionId (updater sys) = VUndefined
  /\ _latestEvent (updater sys) = VUndefined.
Proof.
  intros Hreach Hfin.
  destruct (settled_reachable _ _ _ _ sys Hreach)
    as (_ & _ & _ & Hbefore & _).
  destruct (Hbefore Hfin) as (_ & Hsr & Hsp & Hd & Hp & Hc & Hl).
  repeat split; assumption.
Qed.

(** X4: the updater never calls [push] with no content: every batch it
    hands to the buffer holds at least one. *)
Theorem no_batch_is_pushed_empty
        (network siteId articleId environment : value)
        (sys : @System Content) :
  reachable (construct network siteId articleId environment) sys ->
  Forall (fun cs => cs <> []) (pushes (history sys)).
Proof.
  intros Hreach.
  apply (settled_reachable _ _ _ _ sys Hreach).
Qed.

(** *** Errors *)

Lemma errors_app (fx1 fx2 : list (Effect (Content := Content))) :
  errors (fx1 ++ fx2) = errors fx1 ++ errors fx2.
Proof. apply flat_map_app. Qed.

Lemma errors_turn_effects (r : completion unit)
      (fx : list (Effect (Content := Content))) :
  errors (turn_effects r fx) = errors fx.
Proof.
  destruct r; cbn [turn_effects]; [reflexivity|].
  rewrite errors_app. apply app_nil_r.
Qed.

Lemma errors_step (sys sys' : @System Content) (ev : Event) :
  step sys ev = Some sys' ->
  errors (history sys') = errors (history sys) ++ failures [ev].
Proof.
  intros Hstep. destruct ev as [|err data|err data|]; cbn [step] in Hstep.
  - inversion Hstep; subst sys'; clear Hstep. cbn [failures flat_map].
    destruct (_finishedInitFromBootstrap (updater sys)) eqn:Hfin;
      [rewrite (turn_eq _ sys _ _ _ (read_streams _ Hfin))|
       destruct (_isInitingFromBootstrap (updater sys)) eqn:Hinit;
       [rewrite (turn_eq _ sys _ _ _ (read_reentrant _ Hfin Hinit))|
        rewrite (turn_eq _ sys _ _ _ (read_bootstraps _ Hfin Hinit))]];
      cbn [history]; rewrite errors_app; reflexivity.
  - destruct (bootstrapPending sys) as [|o rest]; [discriminate|].
    inversion Hstep; subst sys'; clear Hstep.
    destruct (bootstrap_callback_cases err data (updater sys))
      as [[e Hrun] | (event & cid & Hrun)];
      rewrite (turn_eq _ (mkSystem (updater sys) rest (streamPending sys)
                                   (deferred sys) (history sys))
                       _ _ _ Hrun);
      cbn [history failures flat_map];
      rewrite errors_app, errors_turn_effects, ?errors_app;
      destruct (truthy err); reflexivity.
  - destruct (streamPending sys) as [|o rest]; [discriminate|].
    inversion Hstep; subst sys'; clear Hstep.
    destruct (stream_callback_cases err data (updater sys))
      as [[Herr Hrun] | [[Herr [e Hrun]] | [[Herr Hrun]
           | [(Herr & _ & Hrun) | (Herr & _ & Hrun)]]]];
      rewrite (turn_eq _ (mkSystem (updater sys) (bootstrapPending sys) rest
                                   (deferred sys) (history sys))
                       _ _ _ Hrun);
      cbn [history failures flat_map];
      rewrite errors_app, errors_turn_effects, Herr; reflexivity.
  - destruct (deferred sys) as [|n]; [discriminate|].
    inversion Hstep; subst sys'; clear Hstep.
    rewrite (turn_eq _ (mkSystem (updater sys) (bootstrapPending sys)
                                 (streamPending sys) n (history sys))
                     _ _ _ (stream_eq _)).
    cbn [history]. rewrite errors_app. reflexivity.
Qed.

Lemma errors_run (evs : list Event) :
  forall sys sys' : @System Content,
    run sys evs = Some sys' ->
    errors (history sys') = errors (history sys) ++ failures evs.
Proof.
  induction evs as [|ev rest IH]; intros sys sys' Hrun; cbn in Hrun.
  - inversion Hrun; subst. cbn. rewrite app_nil_r. reflexivity.
  - destruct (step sys ev) as [sys1|] eqn:Hstep; [|discriminate].
    rewrite (IH sys1 sys' Hrun), (errors_step sys sys1 ev Hstep).
    rewrite <- app_assoc. unfold failures. cbn [flat_map].
    rewrite app_nil_r. reflexivity.
Qed.

(** X5: the errors the updater emits are exactly the errors the two
    services answered with, each once and in the order of the answers;
    nothing else is ever emitted as an error (an exception thrown inside a
    callback is not), and no answer with an error goes unreported. *)
Theorem errors_are_the_failed_answers
        (u : CollectionUpdater) (evs : list Event) (sys : @System Content) :
  run (start u) evs = Some sys ->
  errors (history sys) = failures evs.
Proof. intros Hrun. exact (errors_run evs (start u) sys Hrun). Qed.

(** X6: a stream callback called with no error and no response
    ([undefined] or [null]) throws on [data.timeout]; the cursor and every
    other field stay as they were, nothing is pushed, requested or
    deferred, so the polling stops until the next [read()]. *)
Theorem response_without_data_stalls
        (sys : @System Content) (err data : value)
        (o : Options) (rest : list Options) :
  truthy err = false ->
  data = VUndefined \/ data = VNull ->
  streamPending sys = o :: rest ->
  step sys (StreamResponse err data)
  = Some (mkSystem (updater sys) (bootstrapPending sys) rest (deferred sys)
                   (history sys ++ [Uncaught (TypeError "timeout")])).
Proof.
  intros Herr Hdata Hpend.
  rewrite (step_stream_response sys err data o rest Hpend).
  assert (Hrun : stream_callback err data (updater sys)
                 = (Throw (TypeError "timeout"), updater sys, [])).
  { unfold stream_callback, bind, lift. rewrite Herr.
    destruct Hdata; subst data; reflexivity. }
  rewrite (turn_eq _ (mkSystem (updater sys) (bootstrapPending sys) rest
                               (deferred sys) (history sys))
                   _ _ _ Hrun).
  cbn. rewrite !app_nil_r, Nat.add_0_r. reflexivity.
Qed.

End WithTranslator.

(** *** Concrete runs *)

Lemma awaiting_stream_reachable :
  reachable (STC := object_states)
            (construct (VStr "n1") (VStr "s1") (VStr "a1") VUndefined)
            awaiting_stream.
Proof.
  exists [Read;
          BootstrapResponse VNull (init_response (VStr "E0") (VStr "C1"))].
  reflexivity.
Qed.

Lemma awaiting_bootstrap_reachable :
  reachable (STC := object_states)
            (construct (VStr "n1") (VStr "s1") (VStr "a1") VUndefined)
            awaiting_bootstrap.
Proof. exists [Read]. reflexivity. Qed.

Lemma bootstrap_is_requested_once_witness :
  bootstrap_requests (history awaiting_stream)
  = [mkOptions VUndefined (VStr "n1") (VStr "s1") (VStr "a1")
               VUndefined None].
Proof.
  exact (@bootstrap_is_requested_once value object_states
           (VStr "n1") (VStr "s1") (VStr "a1") VUndefined
           awaiting_stream awaiting_stream_reachable).
Defined.

Lemma requests_name_the_collection_witness :
  Forall (names_collection (VStr "n1") (VStr "s1") (VStr "a1") VUndefined)
         (bootstrap_requests (history awaiting_stream)
          ++ stream_requests (history awaiting_stream)).
Proof.
  exact (@requests_name_the_collection value object_states
           (VStr "n1") (VStr "s1") (VStr "a1") VUndefined
           awaiting_stream awaiting_stream_reachable).
Defined.

Lemma nothing_streams_before_bootstrap_witness :
  stream_requests (history awaiting_bootstrap) = []
  /\ pushes (history awaiting_bootstrap) = []
  /\ streamPending awaiting_bootstrap = []
  /\ deferred awaiting_bootstrap = O
  /\ _collectionId (updater awaiting_bootstrap) = VUndefined
  /\ _latestEvent (updater awaiting_bootstrap) = VUndefined.
Proof.
  exact (@nothing_streams_before_bootstrap value object_states
           (VStr "n1") (VStr "s1") (VStr "a1") VUndefined
           awaiting_bootstrap awaiting_bootstrap_reachable eq_refl).
Defined.

Lemma no_batch_is_pushed_empty_witness :
  pushes (history after_two_batches) = [[stateA; stateB]]
  /\ Forall (fun cs => cs <> []) (pushes (history after_two_batches)).
Proof.
  split; [reflexivity|].
  apply (@no_batch_is_pushed_empty value object_states
           (VStr "n1") (VStr "s1") (VStr "a1") VUndefined).
  exists two_batches. vm_compute. reflexivity.
Defined.

Lemma errors_are_the_failed_answers_witness :
  errors (history after_two_failures) = [VStr "boom"; VStr "again"].
Proof.
  apply (@errors_are_the_failed_answers value object_states fresh
           two_failures after_two_failures).
  vm_compute. reflexivity.
Defined.

Lemma response_without_data_stalls_witness :
  step (STC := object_states) awaiting_stream (StreamResponse VNull VUndefined)
  = Some (mkSystem streaming_E0 [] [] O
                   (history awaiting_stream
                    ++ [Uncaught (TypeError "timeout")])).
Proof.
  apply (@response_without_data_stalls value object_states
           awaiting_stream VNull VUndefined (stream_options streaming_E0) []).
  - reflexivity.
  - left. reflexivity.
  - reflexivity.
Defined.

End UpdaterRunFacts.

(** * The content list over series of calls *)

Module ListViewRunFacts.

Import Stash ListView ListViewRuns ListViewFacts.

(** *** [getContentView] *)

Lemma getContentView_cons (v : ContentView) (vs : list ContentView)
      (c : Content) :
  getContentView (v :: vs) c
  = if matches c v then Some v else getContentView vs c.
Proof. reflexivity. Qed.

Lemma getContentView_none (vs : list ContentView) (c : Content) :
  getContentView vs c = None
  <-> (forall v, In v vs -> matches c v = false).
Proof.
  induction vs as [|w vs IH]; [cbn; tauto|].
  rewrite getContentView_cons. split.
  - destruct (matches c w) eqn:Hw; [discriminate|].
    intros Hnone v [<- | Hin]; [exact Hw | apply IH; assumption].
  - intros Hall. rewrite (Hall w (or_introl eq_refl)).
    apply IH. intros v Hin. apply Hall. right. exact Hin.
Qed.

(** X7: [getContentView] returns the first view, in list order, whose
    content is the given object or has the same non-empty id, and [null]
    exactly when no view of the list is such a one. *)
Theorem getContentView_finds_the_first_match
        (vs : list ContentView) (c : Content) :
  (getContentView vs c = None
   <-> (forall v, In v vs -> matches c v = false))
  /\ (forall v,
         getContentView vs c = Some v ->
         exists before after,
           vs = before ++ v :: after
           /\ matches c v = true
           /\ Forall (fun w => matches c w = false) before).
Proof.
  split; [apply getContentView_none|].
  induction vs as [|w vs IH]; intros v Hsome; [discriminate|].
  rewrite getContentView_cons in Hsome.
  destruct (matches c w) eqn:Hw.
  - inversion Hsome; subst. exists [], vs. repeat split; [exact Hw|].
    constructor.
  - destruct (IH v Hsome) as (before & after & -> & Hv & Hall).
    exists (w :: before), after. repeat split; [exact Hv|].
    constructor; assumption.
Qed.

Lemma getContentView_only_match (vs : list ContentView) (c : Content)
      (v : ContentView) :
  In v vs ->
  matches c v = true ->
  (forall w, In w vs -> w = v \/ matches c w = false) ->
  getContentView vs c = Some v.
Proof.
  induction vs as [|w vs IH]; intros Hin Hv Hothers; [contradiction|].
  rewrite getContentView_cons.
  destruct (Hothers w (or_introl eq_refl)) as [-> | Hw].
  - rewrite Hv. reflexivity.
  - rewrite Hw. destruct Hin as [-> | Hin]; [congruence|].
    apply IH; [exact Hin | exact Hv|].
    intros x Hx. apply Hothers. right. exact Hx.
Qed.

Lemma matches_own_view (c : Content) (n : nat) :
  matches c (mkView n c) = true.
Proof. unfold matches. cbn. rewrite Nat.eqb_refl. reflexivity. Qed.


Section WithBase.

Context {B : ListViewBase} {L : ListViewLaws B}.

(** *** One call of [add] that makes a view *)

(** Where the views come from after such a call: the new view joined a
    part of the old list. *)
Lemma add_new_views (c : Content) (index : option Z) (s : ContentListView) :
  well_formed s ->
  fst (add_new c index s) = Normal tt ->
  exists base,
    views (snd (add_new c index s))
    = ListView_add base (mkView (next_ref s) c) index
    /\ incl base (views s)
    /\ NoDup base
    /\ next_ref (snd (add_new c index s)) = S (next_ref s).
Proof.
  intros [Hnd Hall].
  destruct s as [views0 maxVisible bound more0 stash0 feature0 ref0].
  cbn in Hnd, Hall.
  unfold add_new, createContentView, displace. cbn.
  destruct (bound && negb _); cbn.
  - destruct (rev views0) as [|v rest] eqn:Hrev; cbn; [discriminate|].
    intros _. pose proof (last_view_split _ _ _ Hrev) as Hviews.
    assert (Hnot : ~ In v (rev rest)).
    { rewrite Hviews in Hnd. apply NoDup_remove_2 in Hnd.
      rewrite app_nil_r in Hnd. exact Hnd. }
    assert (Hnd0 : NoDup (rev rest)).
    { rewrite Hviews in Hnd. apply NoDup_remove_1 in Hnd.
      rewrite app_nil_r in Hnd. exact Hnd. }
    exists (rev rest).
    destruct stash0; cbn;
      match goal with
      | |- context [cadence ?x] =>
          destruct (cadence_views x) as (Hv & Hr & _); rewrite Hv, Hr
      end; cbn;
      rewrite Hviews at 1; rewrite (ListView_remove_last _ _ Hnot);
      (repeat split; try assumption;
       rewrite Hviews; apply incl_appl, incl_refl).
  - intros _. exists views0.
    match goal with
    | |- context [cadence ?x] =>
        destruct (cadence_views x) as (Hv & Hr & _); rewrite Hv, Hr
    end; cbn.
    repeat split; try assumption. apply incl_refl.
Qed.

(** X8: a content that has just got its view is found again by
    [getContentView], as that very view; so a second [add] of the same
    content makes no second view: it only hands the existing view to the
    base [add], leaving the stashes, the cadence counter and the bound
    alone. *)
Theorem second_add_makes_no_view
        (c : Content) (first second : option Z) (s : ContentListView) :
  well_formed s ->
  getContentView (views s) c = None ->
  fst (add (AContent c) first s) = Normal tt ->
  let s1 := snd (add (AContent c) first s) in
  getContentView (views s1) c = Some (mkView (next_ref s) c)
  /\ add (AContent c) second s1
     = (Normal tt,
        set_views (ListView_add (views s1) (mkView (next_ref s) c) second)
                  s1).
Proof.
  intros Hwf Hnone Hok. unfold add in Hok |- *. rewrite Hnone in Hok |- *.
  cbn zeta.
  destruct (add_new_views c first s Hwf Hok)
    as (base & Hviews & Hincl & Hnd & _).
  assert (Hfresh : ~ In (mkView (next_ref s) c) base).
  { intros Hin. apply Hincl in Hin. destruct Hwf as [_ Hall].
    exact (fresh_view_not_listed _ _ _ Hall Hin). }
  destruct (ListView_add_fresh base (mkView (next_ref s) c) first Hfresh)
    as (_ & Hin & _).
  assert (Hfound : getContentView (views (snd (add_new c first s))) c
                   = Some (mkView (next_ref s) c)).
  { rewrite Hviews. apply getContentView_only_match.
    - apply Hin. left. reflexivity.
    - apply matches_own_view.
    - intros w Hw. apply Hin in Hw. destruct Hw as [-> | Hw];
        [left; reflexivity | right].
      apply (proj1 (getContentView_none (views s) c) Hnone), Hincl, Hw. }
  split; [exact Hfound|]. rewrite Hfound. reflexivity.
Qed.

(** X9: once the list is unbounded ([bounded(false)], as [showMore]
    does), [add] of a new content never displaces anything, however long
    the list is: the list grows by the new view, the stashes are not
    touched, and the list stays unbounded. *)
Theorem unbounded_add_never_displaces
        (c : Content) (index : option Z) (s : ContentListView) :
  well_formed s ->
  getContentView (views s) c = None ->
  let s' := snd (add (AContent c) index (bounded false s)) in
  fst (add (AContent c) index (bounded false s)) = Normal tt
  /\ views s' = ListView_add (views s) (mkView (next_ref s) c) index
  /\ List.length (views s') = S (List.length (views s))
  /\ more s' = more s
  /\ _stash s' = _stash s
  /\ _bound s' = false.
Proof.
  intros [Hnd Hall] Hnone. unfold add, bounded. cbn [views].
  rewrite Hnone. unfold add_new, createContentView. cbn.
  match goal with
  | |- context [cadence ?x] =>
      destruct (cadence_views x) as (Hv & _ & _ & Hb & Hm & Hs);
      rewrite Hv, Hb, Hm, Hs
  end. cbn.
  destruct (listed_after_add (views s) (next_ref s) c index Hnd Hall)
    as (_ & _ & Hlen).
  repeat split. exact Hlen.
Qed.

(** X10: when the list was given a stash of its own ([opts.stash]), an
    overflowing [add] stacks the displaced content on that stash but
    calls [setGoal(0)] on [this.more]: the stash that holds the content
    is not told to hold back, and [this.more] is, though it got
    nothing. *)
Theorem own_stash_is_not_told_to_hold_back
        (c : Content) (index : option Z) (s : ContentListView)
        (st : Stash) (vs : list ContentView) (v : ContentView) :
  _bound s = true ->
  _stash s = Some st ->
  getContentView (views s) c = None ->
  _maxVisibleItems s < Z.of_nat (List.length (views s)) ->
  views s = vs ++ [v] ->
  ~ In v vs ->
  let s' := snd (add (AContent c) index s) in
  _stash s' = Some (stack (content v) st)
  /\ more s' = setGoal 0 (more s).
Proof.
  intros Hb Hst Hnone Hlt Hviews Hnot. unfold add. rewrite Hnone.
  rewrite (add_new_overflowing c index s vs v Hb Hlt Hviews Hnot).
  cbn [snd].
  match goal with
  | |- context [cadence ?x] =>
      destruct (cadence_views x) as (_ & _ & _ & _ & Hm & Hs);
      rewrite Hm, Hs
  end.
  unfold saveForLater. cbn. rewrite Hst. cbn. split; reflexivity.
Qed.

(** *** Series of calls *)



End WithBase.

(** *** Concrete runs *)


Lemma well_formed_full_list : well_formed full_list.
Proof.
  split.
  - repeat constructor; cbn; intuition discriminate.
  - repeat constructor.
Qed.

Lemma getContentView_finds_the_first_match_witness :
  getContentView (views full_list) (item 2) = None
  /\ exists before after,
       views full_list = before ++ mkView 1 (item 1) :: after
       /\ matches (item 1) (mkView 1 (item 1)) = true
       /\ Forall (fun w => matches (item 1) w = false) before.
Proof.
  destruct (getContentView_finds_the_first_match (views full_list) (item 2))
    as [Hnone _].
  destruct (getContentView_finds_the_first_match (views full_list) (item 1))
    as [_ Hsome].
  split.
  - apply Hnone. intros v [<- | [<- | []]]; reflexivity.
  - apply Hsome. reflexivity.
Defined.

Lemma second_add_makes_no_view_witness :
  let s1 := snd (add (B := simple_list) (AContent (item 2)) None full_list) in
  getContentView (views s1) (item 2) = Some (mkView 2 (item 2))
  /\ add (B := simple_list) (AContent (item 2)) (Some 0) s1
     = (Normal tt,
        set_views (ListView_add (ListViewBase := simple_list)
                                (views s1) (mkView 2 (item 2)) (Some 0))
                  s1).
Proof.
  exact (@second_add_makes_no_view simple_list simple_list_laws
           (item 2) None (Some 0) full_list
           well_formed_full_list eq_refl eq_refl).
Defined.

Lemma unbounded_add_never_displaces_witness :
  let s' := snd (add (B := simple_list) (AContent (item 2)) None
                     (bounded false full_list)) in
  fst (add (B := simple_list) (AContent (item 2)) None
           (bounded false full_list)) = Normal tt
  /\ views s' = ListView_add (ListViewBase := simple_list)
                             (views full_list) (mkView 2 (item 2)) None
  /\ List.length (views s') = 3%nat
  /\ more s' = more full_list
  /\ _stash s' = _stash full_list
  /\ _bound s' = false.
Proof.
  exact (@unbounded_add_never_displaces simple_list simple_list_laws
           (item 2) None full_list well_formed_full_list eq_refl).
Defined.

Lemma own_stash_is_not_told_to_hold_back_witness :
  let s' := snd (add (B := simple_list) (AContent (item 2)) None
                     full_list_with_own_stash) in
  _stash s' = Some (stack (item 1) empty_stash)
  /\ more s' = setGoal 0 empty_stash.
Proof.
  apply (@own_stash_is_not_told_to_hold_back simple_list simple_list_laws
           (item 2) None full_list_with_own_stash empty_stash
           [mkView 0 (item 0)] (mkView 1 (item 1)));
    try reflexivity.
  cbn. intuition discriminate.
Defined.


End ListViewRunFacts.

(** * Properties of LivefyreContent *)

Module LivefyreContentFacts.

Import LivefyreContent.

Lemma strict_equal_eq (a b : primitive) : strict_equal a b = true <-> a = b.
Proof.
  destruct a, b; cbn; split; intros H;
    try reflexivity; try discriminate; try (inversion H; fail).
  - apply Bool.eqb_prop in H. subst. reflexivity.
  - inversion H; subst. apply Bool.eqb_reflx.
  - apply Z.eqb_eq in H. subst. reflexivity.
  - inversion H; subst. apply Z.eqb_refl.
  - apply String.eqb_eq in H. subst. reflexivity.
  - inversion H; subst. apply String.eqb_refl.
Qed.

Lemma found_in_spec (l : list Attached) (obj : Attached) :
  found_in l obj = true
  <-> has_id (attached_id obj) = true
      /\ In (attached_id obj) (map attached_id l).
Proof.
  unfold found_in. destruct (has_id (attached_id obj)).
  - rewrite existsb_exists, in_map_iff. split.
    + intros (entry & Hin & Heq). apply strict_equal_eq in Heq.
      split; [reflexivity|]. exists entry. split; assumption.
    + intros [_ (entry & Heq & Hin)]. exists entry. split; [exact Hin|].
      apply strict_equal_eq. exact Heq.
  - split; [discriminate | intros [H _]; discriminate].
Qed.

Lemma found_in_after (l : list Attached) (obj : Attached) :
  has_id (attached_id obj) = true -> found_in (l ++ [obj]) obj = true.
Proof.
  intros Hid. apply found_in_spec. split; [exact Hid|].
  rewrite map_app. apply in_or_app. right. left. reflexivity.
Qed.



(** X12: an attachment with an id is attached once: [addAttachment] of
    an object whose id is already among the attachments changes nothing
    and signals nothing; in particular calling it twice with the same
    object is as calling it once. *)
Theorem addAttachment_is_idempotent (obj : Attached) (c : LivefyreContent) :
  has_id (attached_id obj) = true ->
  (In (attached_id obj) (map attached_id (attachments c)) ->
   addAttachment obj c = (c, []))
  /\ addAttachment obj (fst (addAttachment obj c))
     = (fst (addAttachment obj c), []).
Proof.
  intros Hid. split.
  - intros Hin. unfold addAttachment.
    rewrite (proj2 (found_in_spec _ _) (conj Hid Hin)). reflexivity.
  - unfold addAttachment at 2 3.
    destruct (found_in (attachments c) obj) eqn:Hfound; cbn [fst].
    + unfold addAttachment. rewrite Hfound. reflexivity.
    + unfold addAttachment. cbn [attachments set_attachments].
      rewrite (found_in_after _ _ Hid). reflexivity.
Qed.


(** X14: an attachment without an id (missing, [0] or the empty string)
    is never recognised: every call appends it and signals it, so the
    same object attached twice is listed twice. *)
Theorem attachment_without_id_is_added_each_time
        (obj : Attached) (c : LivefyreContent) :
  has_id (attached_id obj) = false ->
  addAttachment obj c
  = (set_attachments (attachments c ++ [obj]) c, [Emit_attachment obj])
  /\ attachments (fst (addAttachment obj (fst (addAttachment obj c))))
     = attachments c ++ [obj; obj].
Proof.
  intros Hid. unfold addAttachment, found_in. rewrite Hid. cbn.
  split; [reflexivity|]. rewrite <- app_assoc. reflexivity.
Qed.


(** *** The constructor and the featured value *)

Lemma get_prop_truthy (v : value) (k : string) :
  truthy v = true -> exists x, get_prop v k = Normal x.
Proof. destruct v; cbn; try discriminate; intros _; eexists; reflexivity. Qed.




(** X21: when the [source], [vis], [content.createdAt] or
    [content.updatedAt] of a state is an object with a [toString] of its
    own, the constructor throws on converting it: the body is set by
    then, but the annotations are never read, so [featured] and
    [_annotations], like the attachments and replies, are as the base
    constructor left them. *)
Theorem construct_stops_at_what_it_cannot_convert
        (props : list (string * value)) (this : LivefyreContent) :
  convertible props = false ->
  let content := or_else (lookup "content" props) (VObj []) in
  let c := snd (construct (VObj props) this) in
  fst (construct (VObj props) this) = Throw (TypeError "toString")
  /\ body c = or_else (dig content ["bodyHtml"]) (VStr "")
  /\ featured c = featured this
  /\ _annotations c = _annotations this
  /\ attachments c = attachments this
  /\ replies c = replies this.
Proof.
  intros Hconv content. unfold convertible in Hconv. fold content in Hconv.
  unfold construct. cbn [truthy negb]. fold content.
  assert (Hcontent : truthy content = true)
    by (unfold content, or_else;
        destruct (truthy (lookup "content" props)) eqn:H;
        [exact H | reflexivity]).
  destruct (get_prop_truthy content "bodyHtml" Hcontent) as [bodyHtml Hb].
  destruct (get_prop_truthy content "id" Hcontent) as [cid Hi].
  destruct (get_prop_truthy content "createdAt" Hcontent) as [created Hc].
  destruct (get_prop_truthy content "updatedAt" Hcontent) as [updated Hu].
  rewrite Hc, Hu in Hconv.
  assert (Hbody : dig content ["bodyHtml"] = bodyHtml)
    by (cbn [dig]; rewrite Hb; reflexivity).
  rewrite Hbody.
  unfold bind, lift, update, convert, ret.
  rewrite Hb.
  destruct (converts (lookup "source" props)); [|cbn; repeat split].
  rewrite Hi, Hc.
  destruct (converts created); [|cbn; repeat split].
  rewrite Hu.
  destruct (converts updated); [|cbn; repeat split].
  destruct (converts (lookup "vis" props)); [discriminate|].
  cbn. repeat split.
Qed.

(** X17: the constructor does nothing at all with no state ([undefined],
    [null], [false], [0], [""]), and throws, before setting any field,
    on a state that is a number, a string or [true]. *)
Theorem construct_without_an_object (json : value) (this : LivefyreContent) :
  (forall props, json <> VObj props) ->
  construct json this
  = (if truthy json then Throw (TypeError "content") else Normal tt, this).
Proof.
  intros Hnot. unfold construct.
  destruct json as [| |b|n|s0|props]; cbn;
    try reflexivity;
    try (destruct b; reflexivity);
    try (destruct (n =? 0); reflexivity);
    try (destruct (String.eqb s0 ""); reflexivity).
  exfalso. apply (Hnot props). reflexivity.
Qed.

(** *** Concrete runs *)

Lemma addAttachment_is_idempotent_witness :
  addAttachment photo with_photo = (with_photo, [])
  /\ addAttachment video (fst (addAttachment video with_photo))
     = (fst (addAttachment video with_photo), []).
Proof.
  split.
  - destruct (addAttachment_is_idempotent photo with_photo eq_refl)
      as [Hknown _].
    apply Hknown. left. reflexivity.
  - destruct (addAttachment_is_idempotent video with_photo eq_refl)
      as [_ Htwice].
    exact Htwice.
Defined.


Lemma attachment_without_id_is_added_each_time_witness :
  addAttachment anonymous blank
  = (set_attachments [anonymous] blank, [Emit_attachment anonymous])
  /\ attachments
       (fst (addAttachment anonymous (fst (addAttachment anonymous blank))))
     = [anonymous; anonymous].
Proof.
  exact (attachment_without_id_is_added_each_time anonymous blank eq_refl).
Defined.



Lemma construct_stops_at_what_it_cannot_convert_witness :
  construct (VObj stubborn_state) blank
  = (Throw (TypeError "toString"), set_body (VStr "<p>ho</p>") blank).
Proof.
  destruct (construct_stops_at_what_it_cannot_convert
              stubborn_state blank eq_refl) as (Hthrow & _).
  destruct (construct (VObj stubborn_state) blank) as [r c] eqn:Hrun.
  cbn [fst] in Hthrow. subst r.
  inversion Hrun. reflexivity.
Defined.

Example featured_value_of_the_state :
  option_map getFeaturedValue
    (match construct (VObj featured_state) blank with
     | (Normal _, c) => Some c
     | (Throw _, _) => None
     end)
  = Some (Normal (VNum 3)).
Proof. reflexivity. Qed.

Lemma construct_without_an_object_witness :
  construct (VNum 5) blank = (Throw (TypeError "content"), blank)
  /\ construct VNull blank = (Normal tt, blank).
Proof.
  split.
  - apply (construct_without_an_object (VNum 5) blank). discriminate.
  - apply (construct_without_an_object VNull blank). discriminate.
Defined.

End LivefyreContentFacts.

(** * Properties of the attachment gallery *)

Module GalleryFacts.

Import Gallery.

Section WithOembed.

Context {Oembed : Type} (isTileableAttachment : Oembed -> bool).

Local Abbreviation next := (Gallery.next isTileableAttachment).
Local Abbreviation prev := (Gallery.prev isTileableAttachment).
Local Abbreviation tileable := (Gallery.tileable isTileableAttachment).

(** The two loops look for the tileable attachment number [target],
    counting from [tileableIndex] at the head of what is left. *)
Lemma next_from_spec (rest : list Oembed) :
  forall (tileableIndex : Z) (g : GalleryAttachmentListView),
    next_from isTileableAttachment rest tileableIndex g
    = match (if tileableIndex <=? focusedIndex g + 1
             then nth_error (filter isTileableAttachment rest)
                            (Z.to_nat (focusedIndex g + 1 - tileableIndex))
             else None) with
      | Some oembed => (focus_on (focusedIndex g + 1) oembed g, true)
      | None => (g, false)
      end.
Proof.
  induction rest as [|oembed rest IH]; intros k g; cbn [next_from filter].
  - destruct (k <=? focusedIndex g + 1);
      [destruct (Z.to_nat _)|]; reflexivity.
  - destruct (isTileableAttachment oembed); cbn [negb]; [|apply IH].
    destruct (Z.eqb_spec (focusedIndex g + 1) k) as [Heq|Hne].
    + rewrite <- Heq, Z.leb_refl, Z.sub_diag. reflexivity.
    + rewrite IH.
      destruct (Z.leb_spec k (focusedIndex g + 1)) as [Hle|Hgt].
      * destruct (Z.leb_spec (k + 1) (focusedIndex g + 1)); [|lia].
        replace (Z.to_nat (focusedIndex g + 1 - k))
          with (S (Z.to_nat (focusedIndex g + 1 - (k + 1)))) by lia.
        reflexivity.
      * destruct (Z.leb_spec (k + 1) (focusedIndex g + 1)); [lia|].
        reflexivity.
Qed.

Lemma prev_from_spec (rest : list Oembed) :
  forall (tileableIndex : Z) (g : GalleryAttachmentListView),
    prev_from isTileableAttachment rest tileableIndex g
    = match (if tileableIndex <=? focusedIndex g - 1
             then nth_error (filter isTileableAttachment rest)
                            (Z.to_nat (focusedIndex g - 1 - tileableIndex))
             else None) with
      | Some oembed => (focus_on (focusedIndex g - 1) oembed g, true)
      | None => (g, false)
      end.
Proof.
  induction rest as [|oembed rest IH]; intros k g; cbn [prev_from filter].
  - destruct (k <=? focusedIndex g - 1);
      [destruct (Z.to_nat _)|]; reflexivity.
  - destruct (isTileableAttachment oembed); cbn [negb]; [|apply IH].
    destruct (Z.eqb_spec (focusedIndex g - 1) k) as [Heq|Hne].
    + rewrite <- Heq, Z.leb_refl, Z.sub_diag. reflexivity.
    + rewrite IH.
      destruct (Z.leb_spec k (focusedIndex g - 1)) as [Hle|Hgt].
      * destruct (Z.leb_spec (k + 1) (focusedIndex g - 1)); [|lia].
        replace (Z.to_nat (focusedIndex g - 1 - k))
          with (S (Z.to_nat (focusedIndex g - 1 - (k + 1)))) by lia.
        reflexivity.
      * destruct (Z.leb_spec (k + 1) (focusedIndex g - 1)); [lia|].
        reflexivity.
Qed.

(** X18: [next] looks among the tileable attachments only, in the order
    of their views: if there is one at position [focusedIndex + 1] it
    becomes the focused attachment, [focusedIndex] goes up by one and
    [render] is called; if the focused one is the last, nothing changes
    and nothing is rendered. *)
Theorem next_focuses_the_following_tileable
        (g : GalleryAttachmentListView) :
  0 <= focusedIndex g + 1 ->
  next g
  = match nth_error (tileable g) (Z.to_nat (focusedIndex g + 1)) with
    | Some oembed => (focus_on (focusedIndex g + 1) oembed g, true)
    | None => (g, false)
    end
  /\ (Z.of_nat (List.length (tileable g)) <= focusedIndex g + 1 ->
      next g = (g, false)).
Proof.
  intros Hpos. unfold Gallery.next. rewrite next_from_spec.
  destruct (Z.leb_spec 0 (focusedIndex g + 1)); [|lia].
  rewrite Z.sub_0_r. split; [reflexivity|].
  intros Hlast. unfold Gallery.tileable in Hlast.
  rewrite (proj2 (nth_error_None _ _)) by lia. reflexivity.
Qed.

(** X19: [prev] likewise focuses the tileable attachment at position
    [focusedIndex - 1]; with the first one focused ([focusedIndex] at
    [0], or below), it changes nothing and renders nothing. *)
Theorem prev_focuses_the_preceding_tileable
        (g : GalleryAttachmentListView) :
  (focusedIndex g <= 0 -> prev g = (g, false))
  /\ (0 < focusedIndex g ->
      prev g
      = match nth_error (tileable g) (Z.to_nat (focusedIndex g - 1)) with
        | Some oembed => (focus_on (focusedIndex g - 1) oembed g, true)
        | None => (g, false)
        end).
Proof.
  unfold Gallery.prev. rewrite prev_from_spec. split; intros H.
  - destruct (Z.leb_spec 0 (focusedIndex g - 1)); [lia | reflexivity].
  - destruct (Z.leb_spec 0 (focusedIndex g - 1)); [|lia].
    rewrite Z.sub_0_r. reflexivity.
Qed.

End WithOembed.

(** *** Concrete runs *)

Lemma next_focuses_the_following_tileable_witness :
  next Nat.even some_gallery
  = (mkGallery [10; 11; 12; 13; 14]%nat 1 (Some 12%nat), true)
  /\ next Nat.even (mkGallery [10; 11; 12; 13; 14]%nat 2 (Some 14%nat))
     = (mkGallery [10; 11; 12; 13; 14]%nat 2 (Some 14%nat), false).
Proof.
  split.
  - apply (@next_focuses_the_following_tileable nat Nat.even some_gallery).
    cbn. lia.
  - apply (@next_focuses_the_following_tileable nat Nat.even
             (mkGallery [10; 11; 12; 13; 14]%nat 2 (Some 14%nat))).
    + cbn. lia.
    + cbn. lia.
Defined.

Lemma prev_focuses_the_preceding_tileable_witness :
  prev Nat.even some_gallery = (some_gallery, false)
  /\ prev Nat.even (mkGallery [10; 11; 12; 13; 14]%nat 2 (Some 14%nat))
     = (mkGallery [10; 11; 12; 13; 14]%nat 1 (Some 12%nat), true).
Proof.
  split.
  - apply (@prev_focuses_the_preceding_tileable nat Nat.even some_gallery).
    cbn. lia.
  - apply (@prev_focuses_the_preceding_tileable nat Nat.even
             (mkGallery [10; 11; 12; 13; 14]%nat 2 (Some 14%nat))).
    cbn. lia.
Defined.

End GalleryFacts.
